(** * Creative Title Maker: the action layer over its two tables

    A shallow embedding of the table definitions ([TitleSessions] and
    [TitleIdeas], as given to [defineTable]) and of [src/actions/index.ts]
    (the seven actions of [server], with [requireUser] and
    [getOwnedSession]).

    - A table is the list of its rows in insertion order; a [where] clause
      is a boolean predicate on rows.
    - Handlers run in a small state-and-error monad over the database and
      the trace of statements issued against it.
    - [crypto.randomUUID()] and [new Date()] are read from an explicit
      environment.
    - [defineAction] parses the input with the action's schema and calls
      the handler only with the parsed data.
    - The store hands a TEXT value back cut at its first U+0000
      character; a row is kept the way it is read back. *)

From Stdlib Require Import Ascii String List Bool ZArith Arith Lia.
Import ListNotations.
Local Open Scope string_scope.

Set Implicit Arguments.

(** ** The tables *)

(** A [column.date] value, in milliseconds since the epoch. *)
Definition Date := Z.

(** The character U+0000. *)
Definition NUL : ascii := "000"%char.

(** A [column.text] value as the store hands it back: the text up to its
    first U+0000 character. *)
Fixpoint cutAtNul (s : string) : string :=
  match s with
  | EmptyString => EmptyString
  | String c rest =>
      if Ascii.eqb c NUL then EmptyString else String c (cutAtNul rest)
  end.

(** The text holds no U+0000 character. *)
Fixpoint nulFree (s : string) : bool :=
  match s with
  | EmptyString => true
  | String c rest => negb (Ascii.eqb c NUL) && nulFree rest
  end.

Module TitleSessions.
Record row : Type := mk {
  id : string;
  userId : string;
  contentType : option string;
  workingTitle : option string;
  topic : option string;
  targetAudience : option string;
  language : option string;
  notes : option string;
  createdAt : Date;
  updatedAt : Date
}.
(** The row as the store keeps it: the free-text columns cut at their
    first U+0000. The identifier columns [id] and [userId] are kept as
    written; identifiers that hold a U+0000 are not followed further. *)
Definition stored (r : row) : row :=
  mk (id r) (userId r)
     (option_map cutAtNul (contentType r))
     (option_map cutAtNul (workingTitle r))
     (option_map cutAtNul (topic r))
     (option_map cutAtNul (targetAudience r))
     (option_map cutAtNul (language r))
     (option_map cutAtNul (notes r))
     (createdAt r) (updatedAt r).
End TitleSessions.

Module TitleIdeas.
Record row : Type := mk {
  id : string;
  sessionId : string;
  titleText : string;
  tone : option string;
  style : option string;
  isFavorite : bool;
  isSelected : bool;
  createdAt : Date
}.
(** The row as the store keeps it: the free-text columns cut at their
    first U+0000. The identifier columns [id] and [sessionId] are kept as
    written; identifiers that hold a U+0000 are not followed further. *)
Definition stored (r : row) : row :=
  mk (id r) (sessionId r)
     (cutAtNul (titleText r))
     (option_map cutAtNul (tone r))
     (option_map cutAtNul (style r))
     (isFavorite r) (isSelected r) (createdAt r).
End TitleIdeas.

Record Db : Type := mkDb {
  titleSessions : list TitleSessions.row;
  titleIdeas : list TitleIdeas.row
}.

Definition emptyDb : Db := mkDb [] [].

Inductive TableName : Type := TitleSessionsT | TitleIdeasT.

(** What [defineTable] gives the query builder: where the rows live,
    which column is the primary key, and how a row written to the table
    is kept. *)
Record Table (R : Type) : Type := mkTable {
  tableName : TableName;
  rowsOf : Db -> list R;
  withRows : list R -> Db -> Db;
  primaryKey : R -> string;
  asStored : R -> R
}.

Definition TitleSessionsTable : Table TitleSessions.row :=
  mkTable TitleSessionsT titleSessions
          (fun rs d => mkDb rs (titleIdeas d)) TitleSessions.id
          TitleSessions.stored.

Definition TitleIdeasTable : Table TitleIdeas.row :=
  mkTable TitleIdeasT titleIdeas
          (fun rs d => mkDb (titleSessions d) rs) TitleIdeas.id
          TitleIdeas.stored.

(** ** Errors *)

Inductive ErrorCode : Type := UNAUTHORIZED | NOT_FOUND.

(** One issue of a failed schema parse: a [min(1)] check on the field at
    [path], or the message of a [refine]. *)
Inductive ZodIssue : Type :=
| too_small (path : string)
| custom (message : string).

Inductive Failure : Type :=
| ActionError (code : ErrorCode) (message : string)
| ActionInputError (issues : list ZodIssue)
| ConstraintError (table : TableName).

(** ** The monad of handlers *)

(** A statement sent to the store, with the number of rows it touched. *)
Inductive Statement : Type :=
| SELECT (t : TableName)
| INSERT (t : TableName)
| UPDATE (t : TableName) (rows : nat)
| DELETE (t : TableName) (rowsAffected : nat).

Record World : Type := mkWorld {
  store : Db;
  trace : list Statement
}.

Inductive Outcome (A : Type) : Type :=
| Return (a : A)
| Throw (e : Failure).
Arguments Throw {A} e.

Definition Action (A : Type) : Type := World -> Outcome A * World.

Definition ret {A} (a : A) : Action A := fun w => (Return a, w).

Definition throw {A} (e : Failure) : Action A := fun w => (Throw e, w).

Definition bind {A B} (m : Action A) (k : A -> Action B) : Action B :=
  fun w =>
    match m w with
    | (Return a, w') => k a w'
    | (Throw e, w') => (Throw e, w')
    end.

Notation "x <- m ;; k" := (bind m (fun x => k))
  (at level 61, m at next level, right associativity).

Definition issue (s : Statement) (w : World) : World :=
  mkWorld (store w) (trace w ++ [s]).

(** Runs an action against a database, starting from an empty trace. *)
Definition exec {A} (m : Action A) (d : Db) : Outcome A * World :=
  m (mkWorld d []).

(** ** The query builder *)

Class SqlEq (A : Type) : Type := sql_eqb : A -> A -> bool.
#[global] Instance SqlEq_string : SqlEq string := String.eqb.
#[global] Instance SqlEq_bool : SqlEq bool := Bool.eqb.

(** [eq(column, value)] *)
Definition eq_ {R A} `{SqlEq A} (column : R -> A) (value : A) : R -> bool :=
  fun r => sql_eqb (column r) value.

(** [and(...conditions)] *)
Definition and_ {R} (conditions : list (R -> bool)) : R -> bool :=
  fun r => forallb (fun c => c r) conditions.

(** [db.select().from(T).where(cond)] *)
Definition db_select {R} (T : Table R) (cond : R -> bool) : Action (list R) :=
  fun w => (Return (filter cond (rowsOf T (store w))),
            issue (SELECT (tableName T)) w).

(** [db.insert(T).values(r).returning()]: the primary key must be new;
    the row is kept, and returned, as the store reads it back. *)
Definition db_insert {R} (T : Table R) (r : R) : Action (list R) :=
  fun w =>
    let w' := issue (INSERT (tableName T)) w in
    let kept := asStored T r in
    if existsb (fun x => String.eqb (primaryKey T x) (primaryKey T kept))
               (rowsOf T (store w))
    then (Throw (ConstraintError (tableName T)), w')
    else (Return [kept],
          mkWorld (withRows T (rowsOf T (store w) ++ [kept]) (store w))
                  (trace w')).

(** [db.update(T).set(f).where(cond).returning()]: an updated row is
    kept, and returned, as the store reads it back. *)
Definition db_update {R} (T : Table R) (set : R -> R) (cond : R -> bool)
  : Action (list R) :=
  fun w =>
    let hit := filter cond (rowsOf T (store w)) in
    let write := fun r => asStored T (set r) in
    (Return (map write hit),
     mkWorld (withRows T (map (fun r => if cond r then write r else r)
                              (rowsOf T (store w))) (store w))
             (trace w ++ [UPDATE (tableName T) (length hit)])).

(** [db.delete(T).where(cond)], returning [rowsAffected]. *)
Definition db_delete {R} (T : Table R) (cond : R -> bool) : Action nat :=
  fun w =>
    let hit := filter cond (rowsOf T (store w)) in
    (Return (length hit),
     mkWorld (withRows T (filter (fun r => negb (cond r)) (rowsOf T (store w)))
                       (store w))
             (trace w ++ [DELETE (tableName T) (length hit)])).

(** ** Request context and environment *)

Module User.
Record t : Type := mk { id : string }.
End User.

(** [App.Locals] *)
Record Locals : Type := mkLocals { user : option User.t }.

Record ActionAPIContext : Type := mkContext { locals : option Locals }.

(** The values a handler reads from outside: [crypto.randomUUID()] and
    [new Date()]. *)
Record Env : Type := mkEnv {
  randomUUID : string;
  now : Date
}.

(** ** Schemas *)

Inductive SafeParse (P : Type) : Type :=
| ParseSuccess (data : P)
| ParseError (issues : list ZodIssue).
Arguments ParseError {P} issues.

(** [z.string().min(1)] on the field at [path] *)
Definition min1 (path : string) (v : string) : list ZodIssue :=
  if Nat.ltb (String.length v) 1 then [too_small path] else [].

(** [.refine(check, { message })] *)
Definition refine_ (check : bool) (message : string) : list ZodIssue :=
  if check then [] else [custom message].

(** [v !== undefined] *)
Definition defined {A} (v : option A) : bool :=
  match v with Some _ => true | None => false end.

Definition parsed {P} (issues : list ZodIssue) (data : P) : SafeParse P :=
  match issues with
  | [] => ParseSuccess data
  | _ :: _ => ParseError issues
  end.

(** [defineAction({ input, handler })]: the handler runs on parsed input
    only; a failed parse is thrown as an input error. *)
Definition defineAction {I P A}
    (input : I -> SafeParse P)
    (handler : P -> ActionAPIContext -> Env -> Action A)
  : I -> ActionAPIContext -> Env -> Action A :=
  fun raw context env =>
    match input raw with
    | ParseSuccess data => handler data context env
    | ParseError issues => throw (ActionInputError issues)
    end.

Definition atLeastOneField : string :=
  "At least one field must be provided to update.".

Module CreateTitleSessionInput.
Record t : Type := mk {
  contentType : option string;
  workingTitle : option string;
  topic : option string;
  targetAudience : option string;
  language : option string;
  notes : option string
}.
Definition schema (raw : t) : SafeParse t := parsed [] raw.
End CreateTitleSessionInput.

Module UpdateTitleSessionInput.
Record t : Type := mk {
  id : string;
  contentType : option string;
  workingTitle : option string;
  topic : option string;
  targetAudience : option string;
  language : option string;
  notes : option string
}.
Definition schema (raw : t) : SafeParse t :=
  parsed (min1 "id" (id raw)
          ++ refine_ (defined (contentType raw)
                      || defined (workingTitle raw)
                      || defined (topic raw)
                      || defined (targetAudience raw)
                      || defined (language raw)
                      || defined (notes raw))
                     atLeastOneField)
         raw.
End UpdateTitleSessionInput.

Module ListTitleSessionsInput.
(** [z.object({}).optional()] *)
Definition t : Type := option unit.
Definition schema (raw : t) : SafeParse t := parsed [] raw.
End ListTitleSessionsInput.

Module CreateTitleIdeaInput.
Record t : Type := mk {
  sessionId : string;
  titleText : string;
  tone : option string;
  style : option string;
  isFavorite : option bool;
  isSelected : option bool
}.
Definition schema (raw : t) : SafeParse t :=
  parsed (min1 "sessionId" (sessionId raw)
          ++ min1 "titleText" (titleText raw))
         raw.
End CreateTitleIdeaInput.

Module UpdateTitleIdeaInput.
Record t : Type := mk {
  id : string;
  sessionId : string;
  titleText : option string;
  tone : option string;
  style : option string;
  isFavorite : option bool;
  isSelected : option bool
}.
Definition schema (raw : t) : SafeParse t :=
  parsed (min1 "id" (id raw)
          ++ min1 "sessionId" (sessionId raw)
          ++ refine_ (defined (titleText raw)
                      || defined (tone raw)
                      || defined (style raw)
                      || defined (isFavorite raw)
                      || defined (isSelected raw))
                     atLeastOneField)
         raw.
End UpdateTitleIdeaInput.

Module DeleteTitleIdeaInput.
Record t : Type := mk {
  id : string;
  sessionId : string
}.
Definition schema (raw : t) : SafeParse t :=
  parsed (min1 "id" (id raw) ++ min1 "sessionId" (sessionId raw)) raw.
End DeleteTitleIdeaInput.

Module ListTitleIdeasInput.
(** What the caller sends: the two flags may be left out. *)
Record raw : Type := mkRaw {
  rawSessionId : string;
  rawFavoritesOnly : option bool;
  rawSelectedOnly : option bool
}.
(** What the handler receives: [.default(false)] has filled them in. *)
Record t : Type := mk {
  sessionId : string;
  favoritesOnly : bool;
  selectedOnly : bool
}.
Definition orDefault (v : option bool) (d : bool) : bool :=
  match v with Some b => b | None => d end.
Definition schema (r : raw) : SafeParse t :=
  parsed (min1 "sessionId" (rawSessionId r))
         (mk (rawSessionId r)
             (orDefault (rawFavoritesOnly r) false)
             (orDefault (rawSelectedOnly r) false)).
End ListTitleIdeasInput.

(** ** Guards *)

(** [context.locals?.user] *)
Definition localsUser (context : ActionAPIContext) : option User.t :=
  match locals context with
  | Some l => user l
  | None => None
  end.

Definition requireUser (context : ActionAPIContext) : Action User.t :=
  match localsUser context with
  | Some u => ret u
  | None =>
      throw (ActionError UNAUTHORIZED
                         "You must be signed in to perform this action.")
  end.

Definition getOwnedSession (sessionId userId : string)
  : Action TitleSessions.row :=
  rows <- db_select TitleSessionsTable
            (and_ [eq_ TitleSessions.id sessionId;
                   eq_ TitleSessions.userId userId]) ;;
  match rows with
  | session :: _ => ret session
  | [] => throw (ActionError NOT_FOUND "Title session not found.")
  end.

(** ** The actions of [server] *)

(** The [data] of a successful call; a row taken by [const [row] = rows]
    is [undefined] when [rows] is empty. *)
Inductive Response : Type :=
| SessionData (session : option TitleSessions.row)
| SessionItems (items : list TitleSessions.row) (total : nat)
| IdeaData (idea : option TitleIdeas.row)
| IdeaItems (items : list TitleIdeas.row) (total : nat)
| Success.

(** [...(v !== undefined ? { column: v } : {})] on a required column *)
Definition spread {A} (v : option A) (old : A) : A :=
  match v with Some x => x | None => old end.

(** The same on an optional column. *)
Definition spreadOpt {A} (v : option A) (old : option A) : option A :=
  match v with Some x => Some x | None => old end.

Definition createTitleSession_handler (input : CreateTitleSessionInput.t)
    (context : ActionAPIContext) (env : Env) : Action Response :=
  user <- requireUser context ;;
  let now := now env in
  rows <- db_insert TitleSessionsTable
            (TitleSessions.mk (randomUUID env) (User.id user)
               (CreateTitleSessionInput.contentType input)
               (CreateTitleSessionInput.workingTitle input)
               (CreateTitleSessionInput.topic input)
               (CreateTitleSessionInput.targetAudience input)
               (CreateTitleSessionInput.language input)
               (CreateTitleSessionInput.notes input)
               now now) ;;
  ret (SessionData (hd_error rows)).

Definition createTitleSession :=
  defineAction CreateTitleSessionInput.schema createTitleSession_handler.

(** The [set] of [updateTitleSession]. *)
Definition setTitleSession (input : UpdateTitleSessionInput.t) (date : Date)
    (s : TitleSessions.row) : TitleSessions.row :=
  TitleSessions.mk
    (TitleSessions.id s)
    (TitleSessions.userId s)
    (spreadOpt (UpdateTitleSessionInput.contentType input)
               (TitleSessions.contentType s))
    (spreadOpt (UpdateTitleSessionInput.workingTitle input)
               (TitleSessions.workingTitle s))
    (spreadOpt (UpdateTitleSessionInput.topic input) (TitleSessions.topic s))
    (spreadOpt (UpdateTitleSessionInput.targetAudience input)
               (TitleSessions.targetAudience s))
    (spreadOpt (UpdateTitleSessionInput.language input)
               (TitleSessions.language s))
    (spreadOpt (UpdateTitleSessionInput.notes input) (TitleSessions.notes s))
    (TitleSessions.createdAt s)
    date.

Definition updateTitleSession_handler (input : UpdateTitleSessionInput.t)
    (context : ActionAPIContext) (env : Env) : Action Response :=
  user <- requireUser context ;;
  _ <- getOwnedSession (UpdateTitleSessionInput.id input) (User.id user) ;;
  rows <- db_update TitleSessionsTable
            (setTitleSession input (now env))
            (eq_ TitleSessions.id (UpdateTitleSessionInput.id input)) ;;
  ret (SessionData (hd_error rows)).

Definition updateTitleSession :=
  defineAction UpdateTitleSessionInput.schema updateTitleSession_handler.

Definition listTitleSessions_handler (_input : ListTitleSessionsInput.t)
    (context : ActionAPIContext) (env : Env) : Action Response :=
  user <- requireUser context ;;
  sessions <- db_select TitleSessionsTable
                (eq_ TitleSessions.userId (User.id user)) ;;
  ret (SessionItems sessions (length sessions)).

Definition listTitleSessions :=
  defineAction ListTitleSessionsInput.schema listTitleSessions_handler.

Definition createTitleIdea_handler (input : CreateTitleIdeaInput.t)
    (context : ActionAPIContext) (env : Env) : Action Response :=
  user <- requireUser context ;;
  _ <- getOwnedSession (CreateTitleIdeaInput.sessionId input) (User.id user) ;;
  rows <- db_insert TitleIdeasTable
            (TitleIdeas.mk (randomUUID env)
               (CreateTitleIdeaInput.sessionId input)
               (CreateTitleIdeaInput.titleText input)
               (CreateTitleIdeaInput.tone input)
               (CreateTitleIdeaInput.style input)
               (spread (CreateTitleIdeaInput.isFavorite input) false)
               (spread (CreateTitleIdeaInput.isSelected input) false)
               (now env)) ;;
  ret (IdeaData (hd_error rows)).

Definition createTitleIdea :=
  defineAction CreateTitleIdeaInput.schema createTitleIdea_handler.

(** The [set] of [updateTitleIdea]. *)
Definition setTitleIdea (input : UpdateTitleIdeaInput.t)
    (i : TitleIdeas.row) : TitleIdeas.row :=
  TitleIdeas.mk
    (TitleIdeas.id i)
    (TitleIdeas.sessionId i)
    (spread (UpdateTitleIdeaInput.titleText input) (TitleIdeas.titleText i))
    (spreadOpt (UpdateTitleIdeaInput.tone input) (TitleIdeas.tone i))
    (spreadOpt (UpdateTitleIdeaInput.style input) (TitleIdeas.style i))
    (spread (UpdateTitleIdeaInput.isFavorite input) (TitleIdeas.isFavorite i))
    (spread (UpdateTitleIdeaInput.isSelected input) (TitleIdeas.isSelected i))
    (TitleIdeas.createdAt i).

Definition updateTitleIdea_handler (input : UpdateTitleIdeaInput.t)
    (context : ActionAPIContext) (env : Env) : Action Response :=
  user <- requireUser context ;;
  _ <- getOwnedSession (UpdateTitleIdeaInput.sessionId input) (User.id user) ;;
  existing <- db_select TitleIdeasTable
                (and_ [eq_ TitleIdeas.id (UpdateTitleIdeaInput.id input);
                       eq_ TitleIdeas.sessionId
                           (UpdateTitleIdeaInput.sessionId input)]) ;;
  match existing with
  | [] => throw (ActionError NOT_FOUND "Title idea not found.")
  | _ :: _ =>
      rows <- db_update TitleIdeasTable
                (setTitleIdea input)
                (eq_ TitleIdeas.id (UpdateTitleIdeaInput.id input)) ;;
      ret (IdeaData (hd_error rows))
  end.

Definition updateTitleIdea :=
  defineAction UpdateTitleIdeaInput.schema updateTitleIdea_handler.

Definition deleteTitleIdea_handler (input : DeleteTitleIdeaInput.t)
    (context : ActionAPIContext) (env : Env) : Action Response :=
  user <- requireUser context ;;
  _ <- getOwnedSession (DeleteTitleIdeaInput.sessionId input) (User.id user) ;;
  rowsAffected <- db_delete TitleIdeasTable
                    (and_ [eq_ TitleIdeas.id (DeleteTitleIdeaInput.id input);
                           eq_ TitleIdeas.sessionId
                               (DeleteTitleIdeaInput.sessionId input)]) ;;
  if Nat.eqb rowsAffected 0
  then throw (ActionError NOT_FOUND "Title idea not found.")
  else ret Success.

Definition deleteTitleIdea :=
  defineAction DeleteTitleIdeaInput.schema deleteTitleIdea_handler.

Definition listTitleIdeas_handler (input : ListTitleIdeasInput.t)
    (context : ActionAPIContext) (env : Env) : Action Response :=
  user <- requireUser context ;;
  _ <- getOwnedSession (ListTitleIdeasInput.sessionId input) (User.id user) ;;
  let filters := [eq_ TitleIdeas.sessionId (ListTitleIdeasInput.sessionId input)] in
  let filters :=
    if ListTitleIdeasInput.favoritesOnly input
    then (filters ++ [eq_ TitleIdeas.isFavorite true])%list else filters in
  let filters :=
    if ListTitleIdeasInput.selectedOnly input
    then (filters ++ [eq_ TitleIdeas.isSelected true])%list else filters in
  ideas <- db_select TitleIdeasTable (and_ filters) ;;
  ret (IdeaItems ideas (length ideas)).

Definition listTitleIdeas :=
  defineAction ListTitleIdeasInput.schema listTitleIdeas_handler.

(** ** The server as one entry point *)

Inductive Request : Type :=
| CreateTitleSession (input : CreateTitleSessionInput.t)
| UpdateTitleSession (input : UpdateTitleSessionInput.t)
| ListTitleSessions (input : ListTitleSessionsInput.t)
| CreateTitleIdea (input : CreateTitleIdeaInput.t)
| UpdateTitleIdea (input : UpdateTitleIdeaInput.t)
| DeleteTitleIdea (input : DeleteTitleIdeaInput.t)
| ListTitleIdeas (input : ListTitleIdeasInput.raw).

Definition server (r : Request) : ActionAPIContext -> Env -> Action Response :=
  match r with
  | CreateTitleSession input => createTitleSession input
  | UpdateTitleSession input => updateTitleSession input
  | ListTitleSessions input => listTitleSessions input
  | CreateTitleIdea input => createTitleIdea input
  | UpdateTitleIdea input => updateTitleIdea input
  | DeleteTitleIdea input => deleteTitleIdea input
  | ListTitleIdeas input => listTitleIdeas input
  end.

(** The stores the seven actions can build from the empty one. *)
Inductive reachable : Db -> Prop :=
| reachable_empty : reachable emptyDb
| reachable_step d r context env :
    reachable d ->
    reachable (store (snd (exec (server r context env) d))).

(** ** Vocabulary of the properties *)

(** The caller [userId] owns a session [sessionId] of the store. *)
Definition owns (d : Db) (userId sessionId : string) : Prop :=
  exists s, In s (titleSessions d)
            /\ TitleSessions.id s = sessionId
            /\ TitleSessions.userId s = userId.

(** An idea of the store under the pair [(id, sessionId)]. *)
Definition ideaAt (d : Db) (id sessionId : string) : Prop :=
  exists i, In i (titleIdeas d)
            /\ TitleIdeas.id i = id
            /\ TitleIdeas.sessionId i = sessionId.

Fixpoint distinct (keys : list string) : bool :=
  match keys with
  | [] => true
  | k :: ks => negb (existsb (String.eqb k) ks) && distinct ks
  end.

(** The primary-key constraint of both tables. *)
Definition primaryKeysHold (d : Db) : Prop :=
  distinct (map TitleSessions.id (titleSessions d)) = true
  /\ distinct (map TitleIdeas.id (titleIdeas d)) = true.

Definition issuesOf {P} (p : SafeParse P) : list ZodIssue :=
  match p with
  | ParseSuccess _ => []
  | ParseError issues => issues
  end.

(** The issues the action's schema raises on the input of a request. *)
Definition inputIssues (r : Request) : list ZodIssue :=
  match r with
  | CreateTitleSession input => issuesOf (CreateTitleSessionInput.schema input)
  | UpdateTitleSession input => issuesOf (UpdateTitleSessionInput.schema input)
  | ListTitleSessions input => issuesOf (ListTitleSessionsInput.schema input)
  | CreateTitleIdea input => issuesOf (CreateTitleIdeaInput.schema input)
  | UpdateTitleIdea input => issuesOf (UpdateTitleIdeaInput.schema input)
  | DeleteTitleIdea input => issuesOf (DeleteTitleIdeaInput.schema input)
  | ListTitleIdeas input => issuesOf (ListTitleIdeasInput.schema input)
  end.

(** The session an idea operation names; session operations name none. *)
Definition ideaSessionId (r : Request) : option string :=
  match r with
  | CreateTitleIdea input => Some (CreateTitleIdeaInput.sessionId input)
  | UpdateTitleIdea input => Some (UpdateTitleIdeaInput.sessionId input)
  | DeleteTitleIdea input => Some (DeleteTitleIdeaInput.sessionId input)
  | ListTitleIdeas input => Some (ListTitleIdeasInput.rawSessionId input)
  | _ => None
  end.

Definition onTable (s : Statement) : TableName :=
  match s with
  | SELECT t | INSERT t | UPDATE t _ | DELETE t _ => t
  end.

Definition onIdeas (s : Statement) : bool :=
  match onTable s with TitleIdeasT => true | TitleSessionsT => false end.

(** A statement that leaves every row where it was: a read, or a delete
    that affected zero rows. *)
Definition changesNothing (s : Statement) : bool :=
  match s with
  | SELECT _ => true
  | DELETE _ 0 => true
  | _ => false
  end.

Definition isDelete (s : Statement) : bool :=
  match s with DELETE _ _ => true | _ => false end.

Definition unauthorized : Failure :=
  ActionError UNAUTHORIZED "You must be signed in to perform this action.".

Definition sessionNotFound : Failure :=
  ActionError NOT_FOUND "Title session not found.".

Definition ideaNotFound : Failure :=
  ActionError NOT_FOUND "Title idea not found.".



(** Every row of the store is as the store reads it back: no free text
    holds a U+0000. *)
Definition textKept (d : Db) : Prop :=
  (forall s, In s (titleSessions d) -> TitleSessions.stored s = s)
  /\ (forall i, In i (titleIdeas d) -> TitleIdeas.stored i = i).

(** The predicate [listTitleIdeas] is meant to apply to an idea. *)
Definition listed (sessionId : string) (favoritesOnly selectedOnly : bool)
    (i : TitleIdeas.row) : bool :=
  String.eqb (TitleIdeas.sessionId i) sessionId
  && implb favoritesOnly (TitleIdeas.isFavorite i)
  && implb selectedOnly (TitleIdeas.isSelected i).

(** The update requests whose input carries none of the optional fields. *)
Definition suppliesNothing (r : Request) : Prop :=
  match r with
  | UpdateTitleSession input =>
      UpdateTitleSessionInput.contentType input = None
      /\ UpdateTitleSessionInput.workingTitle input = None
      /\ UpdateTitleSessionInput.topic input = None
      /\ UpdateTitleSessionInput.targetAudience input = None
      /\ UpdateTitleSessionInput.language input = None
      /\ UpdateTitleSessionInput.notes input = None
  | UpdateTitleIdea input =>
      UpdateTitleIdeaInput.titleText input = None
      /\ UpdateTitleIdeaInput.tone input = None
      /\ UpdateTitleIdeaInput.style input = None
      /\ UpdateTitleIdeaInput.isFavorite input = None
      /\ UpdateTitleIdeaInput.isSelected input = None
  | _ => False
  end.

(** The inputs the schemas let through, field by field. *)
Definition wellFormed (r : Request) : Prop :=
  match r with
  | CreateTitleSession _ => True
  | UpdateTitleSession input =>
      UpdateTitleSessionInput.id input <> ""
      /\ (UpdateTitleSessionInput.contentType input <> None
          \/ UpdateTitleSessionInput.workingTitle input <> None
          \/ UpdateTitleSessionInput.topic input <> None
          \/ UpdateTitleSessionInput.targetAudience input <> None
          \/ UpdateTitleSessionInput.language input <> None
          \/ UpdateTitleSessionInput.notes input <> None)
  | ListTitleSessions _ => True
  | CreateTitleIdea input =>
      CreateTitleIdeaInput.sessionId input <> ""
      /\ CreateTitleIdeaInput.titleText input <> ""
  | UpdateTitleIdea input =>
      UpdateTitleIdeaInput.id input <> ""
      /\ UpdateTitleIdeaInput.sessionId input <> ""
      /\ (UpdateTitleIdeaInput.titleText input <> None
          \/ UpdateTitleIdeaInput.tone input <> None
          \/ UpdateTitleIdeaInput.style input <> None
          \/ UpdateTitleIdeaInput.isFavorite input <> None
          \/ UpdateTitleIdeaInput.isSelected input <> None)
  | DeleteTitleIdea input =>
      DeleteTitleIdeaInput.id input <> ""
      /\ DeleteTitleIdeaInput.sessionId input <> ""
  | ListTitleIdeas input => ListTitleIdeasInput.rawSessionId input <> ""
  end.

(** The two list actions. *)
Definition isList (r : Request) : bool :=
  match r with
  | ListTitleSessions _ | ListTitleIdeas _ => true
  | _ => false
  end.

Definition isSelect (s : Statement) : bool :=
  match s with SELECT _ => true | _ => false end.

(** What one call may do to the store, action by action: nothing, or the
    one write of the action. *)
Definition stepOf (r : Request) (context : ActionAPIContext) (env : Env)
    (d d' : Db) : Prop :=
  d' = d
  \/ exists u,
       localsUser context = Some u
       /\ match r with
          | CreateTitleSession input =>
              exists s,
                d' = mkDb (titleSessions d ++ [s]) (titleIdeas d)
                /\ TitleSessions.id s = randomUUID env
                /\ TitleSessions.userId s = User.id u
                /\ (forall x, In x (titleSessions d) ->
                              TitleSessions.id x <> TitleSessions.id s)
                /\ TitleSessions.stored s = s
          | UpdateTitleSession input =>
              owns d (User.id u) (UpdateTitleSessionInput.id input)
              /\ d' = mkDb
                        (map (fun x =>
                                if eq_ TitleSessions.id
                                       (UpdateTitleSessionInput.id input) x
                                then TitleSessions.stored
                                       (setTitleSession input (now env) x)
                                else x)
                             (titleSessions d))
                        (titleIdeas d)
          | CreateTitleIdea input =>
              owns d (User.id u) (CreateTitleIdeaInput.sessionId input)
              /\ exists i,
                   d' = mkDb (titleSessions d) (titleIdeas d ++ [i])
                   /\ TitleIdeas.id i = randomUUID env
                   /\ TitleIdeas.sessionId i
                      = CreateTitleIdeaInput.sessionId input
                   /\ (forall x, In x (titleIdeas d) ->
                                 TitleIdeas.id x <> TitleIdeas.id i)
                   /\ TitleIdeas.stored i = i
          | UpdateTitleIdea input =>
              owns d (User.id u) (UpdateTitleIdeaInput.sessionId input)
              /\ ideaAt d (UpdateTitleIdeaInput.id input)
                          (UpdateTitleIdeaInput.sessionId input)
              /\ d' = mkDb
                        (titleSessions d)
                        (map (fun x =>
                                if eq_ TitleIdeas.id
                                       (UpdateTitleIdeaInput.id input) x
                                then TitleIdeas.stored (setTitleIdea input x)
                                else x)
                             (titleIdeas d))
          | DeleteTitleIdea input =>
              owns d (User.id u) (DeleteTitleIdeaInput.sessionId input)
              /\ d' = mkDb
                        (titleSessions d)
                        (filter
                           (fun x =>
                              negb (and_ [eq_ TitleIdeas.id
                                            (DeleteTitleIdeaInput.id input);
                                          eq_ TitleIdeas.sessionId
                                            (DeleteTitleIdeaInput.sessionId
                                               input)] x))
                           (titleIdeas d))
          | ListTitleSessions _ | ListTitleIdeas _ => False
          end.

(** The sessions of one user and the ideas of one session, in store
    order. *)
Definition sessionsOf (d : Db) (userId : string) : list TitleSessions.row :=
  filter (fun s => String.eqb (TitleSessions.userId s) userId)
         (titleSessions d).

Definition ideasOf (d : Db) (sessionId : string) : list TitleIdeas.row :=
  filter (fun i => String.eqb (TitleIdeas.sessionId i) sessionId)
         (titleIdeas d).

(** Every idea belongs to a session of the store: the [references] of
    [TitleIdeas.sessionId]. *)
Definition referencesHold (d : Db) : Prop :=
  forall i, In i (titleIdeas d) ->
            exists s, In s (titleSessions d)
                      /\ TitleSessions.id s = TitleIdeas.sessionId i.

(** The id of the caller, when there is one. *)
Definition callerId (context : ActionAPIContext) : option string :=
  option_map User.id (localsUser context).

(** One call as the server receives it, and a sequence of calls run one
    after the other on the store the previous one left. *)
Record Call : Type := mkCall {
  request : Request;
  caller : ActionAPIContext;
  environment : Env
}.

Definition after (c : Call) (d : Db) : Db :=
  store (snd (exec (server (request c) (caller c) (environment c)) d)).

Definition run (calls : list Call) (d : Db) : Db :=
  fold_left (fun d c => after c d) calls d.

(** ** A sample store

    Two users, a session each, and three ideas; the concrete instances
    below are taken on it. *)

Definition userA : ActionAPIContext :=
  mkContext (Some (mkLocals (Some (User.mk "user-a")))).

Definition userB : ActionAPIContext :=
  mkContext (Some (mkLocals (Some (User.mk "user-b")))).

Definition anonymous : ActionAPIContext := mkContext (Some (mkLocals None)).

Definition session1 : TitleSessions.row :=
  TitleSessions.mk "session-1" "user-a" (Some "blog") None None None None None
                   1000%Z 1000%Z.

Definition session2 : TitleSessions.row :=
  TitleSessions.mk "session-2" "user-b" None (Some "Draft") None None None None
                   1100%Z 1100%Z.

Definition idea1 : TitleIdeas.row :=
  TitleIdeas.mk "idea-1" "session-1" "Top 10 Tips" (Some "catchy") None
                true true 1201%Z.

Definition idea2 : TitleIdeas.row :=
  TitleIdeas.mk "idea-2" "session-1" "Ten Tips" None None true false 1202%Z.

Definition idea3 : TitleIdeas.row :=
  TitleIdeas.mk "idea-3" "session-2" "Other" None None true true 1203%Z.

Definition sampleDb : Db := mkDb [session1; session2] [idea1; idea2; idea3].

Definition sampleEnv : Env := mkEnv "uuid-9" 2000%Z.

(** A short history: each user creates a session, the first adds an idea
    and marks it as a favorite. *)
Definition sampleCalls : list Call :=
  [mkCall (CreateTitleSession
             (CreateTitleSessionInput.mk (Some "blog") None None None None None))
          userA (mkEnv "s-1" 1000%Z);
   mkCall (CreateTitleSession
             (CreateTitleSessionInput.mk None None None None None None))
          userB (mkEnv "s-2" 1100%Z);
   mkCall (CreateTitleIdea
             (CreateTitleIdeaInput.mk "s-1" "Top 10 Tips" None None None None))
          userA (mkEnv "i-1" 1200%Z);
   mkCall (UpdateTitleIdea
             (UpdateTitleIdeaInput.mk "i-1" "s-1" None None None
                                      (Some true) None))
          userA (mkEnv "unused" 1300%Z)].

(** The response of a call that returned. *)
Definition responseOf (o : Outcome Response * World) : Response :=
  match fst o with
  | Return resp => resp
  | Throw _ => Success
  end.

(** ** Text as the store keeps it *)

Lemma cutAtNul_nulFree s : nulFree s = true -> cutAtNul s = s.
Proof.
  induction s as [|c s IH]; [reflexivity|]. simpl.
  destruct (Ascii.eqb c NUL); simpl; [discriminate|].
  intros H. now rewrite IH.
Qed.

Lemma nulFree_cutAtNul s : nulFree (cutAtNul s) = true.
Proof.
  induction s as [|c s IH]; [reflexivity|]. simpl.
  destruct (Ascii.eqb c NUL) eqn:E; [reflexivity|]. simpl. now rewrite E.
Qed.

Lemma cutAtNul_twice s : cutAtNul (cutAtNul s) = cutAtNul s.
Proof. apply cutAtNul_nulFree, nulFree_cutAtNul. Qed.

Lemma cutAtNul_option_twice (v : option string) :
  option_map cutAtNul (option_map cutAtNul v) = option_map cutAtNul v.
Proof. destruct v; simpl; [now rewrite cutAtNul_twice | reflexivity]. Qed.





Lemma stored_session_twice s :
  TitleSessions.stored (TitleSessions.stored s) = TitleSessions.stored s.
Proof.
  unfold TitleSessions.stored. cbn. now rewrite !cutAtNul_option_twice.
Qed.

Lemma stored_idea_twice i :
  TitleIdeas.stored (TitleIdeas.stored i) = TitleIdeas.stored i.
Proof.
  unfold TitleIdeas.stored. cbn.
  now rewrite cutAtNul_twice, !cutAtNul_option_twice.
Qed.

(** ** Guards and schemas: basic facts *)

Section Guards.
Variables (context : ActionAPIContext) (w : World).

Lemma requireUser_signed_in u :
  localsUser context = Some u -> requireUser context w = (Return u, w).
Proof. unfold requireUser. now intros ->. Qed.

Lemma requireUser_anonymous :
  localsUser context = None ->
  requireUser context w = (Throw unauthorized, w).
Proof. unfold requireUser. now intros ->. Qed.
End Guards.

Lemma owned_filter d userId sessionId s :
  In s (filter (and_ [eq_ TitleSessions.id sessionId;
                      eq_ TitleSessions.userId userId]) (titleSessions d))
  <-> In s (titleSessions d)
      /\ TitleSessions.id s = sessionId /\ TitleSessions.userId s = userId.
Proof.
  rewrite filter_In. unfold and_, eq_, sql_eqb, SqlEq_string. simpl.
  rewrite andb_true_r, andb_true_iff, !String.eqb_eq. tauto.
Qed.

Lemma getOwnedSession_owned w userId sessionId :
  owns (store w) userId sessionId ->
  exists s, getOwnedSession sessionId userId w
            = (Return s, issue (SELECT TitleSessionsT) w)
            /\ In s (titleSessions (store w))
            /\ TitleSessions.id s = sessionId
            /\ TitleSessions.userId s = userId.
Proof.
  intros (s & Hs). apply (owned_filter (store w) userId sessionId) in Hs.
  unfold getOwnedSession, bind, db_select. simpl.
  destruct (filter _ (titleSessions (store w))) as [|s0 rest] eqn:E.
  - destruct Hs.
  - exists s0. split; [reflexivity|].
    apply (owned_filter (store w) userId sessionId). rewrite E. now left.
Qed.

Lemma getOwnedSession_not_owned w userId sessionId :
  ~ owns (store w) userId sessionId ->
  getOwnedSession sessionId userId w
  = (Throw sessionNotFound, issue (SELECT TitleSessionsT) w).
Proof.
  intros Hn. unfold getOwnedSession, bind, db_select. simpl.
  destruct (filter _ (titleSessions (store w))) as [|s0 rest] eqn:E.
  - reflexivity.
  - exfalso. apply Hn. exists s0.
    apply (owned_filter (store w) userId sessionId). rewrite E. now left.
Qed.

Lemma parsed_issues {P} issues (data : P) :
  issuesOf (parsed issues data) = issues.
Proof. now destruct issues. Qed.

Lemma min1_nonempty path v : v <> "" -> min1 path v = [].
Proof. unfold min1. destruct v; [congruence | reflexivity]. Qed.

Lemma min1_clean path v : min1 path v = [] -> v <> "".
Proof. unfold min1. destruct v; simpl; congruence. Qed.

Lemma defineAction_rejects {I P A} (input : I -> SafeParse P)
    (handler : P -> ActionAPIContext -> Env -> Action A)
    raw context env issues data d :
  input raw = parsed issues data -> issues <> [] ->
  exec (defineAction input handler raw context env) d
  = (Throw (ActionInputError issues), mkWorld d []).
Proof.
  intros E Hne. unfold exec, defineAction. rewrite E.
  destruct issues; [congruence | reflexivity].
Qed.

Lemma defineAction_accepts {I P A} (input : I -> SafeParse P)
    (handler : P -> ActionAPIContext -> Env -> Action A)
    raw context env data :
  input raw = parsed [] data ->
  defineAction input handler raw context env = handler data context env.
Proof. intros E. unfold defineAction. now rewrite E. Qed.

(** ** Calls without an identity *)

Lemma bind_requireUser_anonymous {A} context (k : User.t -> Action A) w :
  localsUser context = None ->
  (user <- requireUser context ;; k user) w = (Throw unauthorized, w).
Proof. intros H. unfold bind. now rewrite requireUser_anonymous. Qed.

Lemma bind_requireUser_signed_in {A} context (k : User.t -> Action A) w u :
  localsUser context = Some u ->
  (user <- requireUser context ;; k user) w = k u w.
Proof. intros H. unfold bind. now rewrite (requireUser_signed_in _ _ H). Qed.

Lemma anonymous_call {I P A} (input : I -> SafeParse P)
    (handler : P -> ActionAPIContext -> Env -> Action A)
    raw issues data context env d :
  input raw = parsed issues data ->
  (forall data w, handler data context env w = (Throw unauthorized, w)) ->
  exec (defineAction input handler raw context env) d
  = (Throw match issuesOf (input raw) with
           | [] => unauthorized
           | _ :: _ => ActionInputError (issuesOf (input raw))
           end,
     mkWorld d []).
Proof.
  intros E Hh. unfold exec, defineAction. rewrite E.
  destruct issues; simpl; [apply Hh | reflexivity].
Qed.

(** C3, as the code has it: a call without a user identity whose input
    passes the schema fails with UNAUTHORIZED before any statement reaches
    the store; when the input does not pass the schema, the call fails
    with the input error first, whoever the caller is. *)
Theorem C3_unauthorized_once_input_parses r context env d :
  localsUser context = None ->
  exec (server r context env) d
  = (Throw match inputIssues r with
           | [] => unauthorized
           | _ :: _ => ActionInputError (inputIssues r)
           end,
     mkWorld d []).
Proof.
  intros Hanon.
  destruct r as [input|input|input|input|input|input|input];
    cbn [server inputIssues];
    unfold createTitleSession, updateTitleSession, listTitleSessions,
      createTitleIdea, updateTitleIdea, deleteTitleIdea, listTitleIdeas;
    (eapply anonymous_call; [reflexivity|]);
    intros data w;
    unfold createTitleSession_handler, updateTitleSession_handler,
      listTitleSessions_handler, createTitleIdea_handler,
      updateTitleIdea_handler, deleteTitleIdea_handler,
      listTitleIdeas_handler;
    apply bind_requireUser_anonymous; assumption.
Qed.

Lemma C3_unauthorized_once_input_parses_witness :
  localsUser (mkContext (Some (mkLocals None))) = None
  /\ exec (server (DeleteTitleIdea (DeleteTitleIdeaInput.mk "idea-1" "session-1"))
                  (mkContext (Some (mkLocals None))) (mkEnv "uuid-1" 1000%Z))
          emptyDb
     = (Throw unauthorized, mkWorld emptyDb []).
Proof.
  split; [reflexivity|].
  exact (C3_unauthorized_once_input_parses
           (DeleteTitleIdea (DeleteTitleIdeaInput.mk "idea-1" "session-1"))
           (mkContext (Some (mkLocals None))) (mkEnv "uuid-1" 1000%Z)
           emptyDb eq_refl).
Defined.

(** C3, as stated, fails: [updateTitleIdea] called without an identity and
    with no mutable field supplied throws the input error of its schema,
    not UNAUTHORIZED. *)
Lemma C3_anonymous_malformed_update_is_input_error :
  let context := mkContext None in
  let input :=
    UpdateTitleIdeaInput.mk "idea-1" "session-1" None None None None None in
  let outcome :=
    fst (exec (server (UpdateTitleIdea input) context (mkEnv "uuid-1" 1000%Z))
              emptyDb) in
  localsUser context = None
  /\ outcome = Throw (ActionInputError [custom atLeastOneField])
  /\ forall message, outcome <> Throw (ActionError UNAUTHORIZED message).
Proof.
  cbv zeta. repeat split. intros message. vm_compute. discriminate.
Qed.

(** ** Updates that supply no field *)

(** C4: [updateTitleSession] with none of its six optional fields, and
    [updateTitleIdea] with none of its five mutable fields, fail with an
    input error that carries the message "At least one field must be
    provided to update.", whoever calls; no statement reaches the store
    and the store is unchanged. *)
Theorem C4_update_without_fields_rejected r context env d :
  suppliesNothing r ->
  exists issues,
    exec (server r context env) d
    = (Throw (ActionInputError issues), mkWorld d [])
    /\ In (custom "At least one field must be provided to update.") issues.
Proof.
  destruct r as [input|input|input|input|input|input|input];
    cbn [suppliesNothing]; try contradiction.
  - intros (H1 & H2 & H3 & H4 & H5 & H6).
    eexists. split.
    + cbn [server]. unfold updateTitleSession.
      eapply defineAction_rejects; [reflexivity|].
      rewrite H1, H2, H3, H4, H5, H6. cbn.
      intros E. apply app_eq_nil in E. destruct E; discriminate.
    + rewrite H1, H2, H3, H4, H5, H6. cbn. apply in_or_app. right. now left.
  - intros (H1 & H2 & H3 & H4 & H5).
    eexists. split.
    + cbn [server]. unfold updateTitleIdea.
      eapply defineAction_rejects; [reflexivity|].
      rewrite H1, H2, H3, H4, H5. cbn.
      intros E. apply app_eq_nil in E. destruct E as [_ E].
      apply app_eq_nil in E. destruct E; discriminate.
    + rewrite H1, H2, H3, H4, H5. cbn.
      apply in_or_app. right. apply in_or_app. right. now left.
Qed.

Lemma C4_update_without_fields_rejected_witness :
  suppliesNothing
    (UpdateTitleSession
       (UpdateTitleSessionInput.mk "session-1" None None None None None None))
  /\ exists issues,
       exec (server
               (UpdateTitleSession
                  (UpdateTitleSessionInput.mk "session-1"
                     None None None None None None))
               (mkContext (Some (mkLocals (Some (User.mk "user-a")))))
               (mkEnv "uuid-1" 1000%Z))
            emptyDb
       = (Throw (ActionInputError issues), mkWorld emptyDb [])
       /\ In (custom "At least one field must be provided to update.") issues.
Proof.
  split.
  - simpl. repeat split.
  - apply C4_update_without_fields_rejected. simpl. repeat split.
Defined.

(** ** The ownership guard in front of every idea operation *)

Lemma guard_not_owned {A} context u sessionId w
    (k : User.t -> TitleSessions.row -> Action A) :
  localsUser context = Some u ->
  ~ owns (store w) (User.id u) sessionId ->
  (user <- requireUser context ;;
   s <- getOwnedSession sessionId (User.id user) ;;
   k user s) w
  = (Throw sessionNotFound, issue (SELECT TitleSessionsT) w).
Proof.
  intros Hu Hno. rewrite bind_requireUser_signed_in with (u := u) by assumption.
  unfold bind. now rewrite getOwnedSession_not_owned.
Qed.

Lemma guard_owned {A} context u sessionId w
    (k : User.t -> TitleSessions.row -> Action A) :
  localsUser context = Some u ->
  owns (store w) (User.id u) sessionId ->
  exists s,
    (user <- requireUser context ;;
     s <- getOwnedSession sessionId (User.id user) ;;
     k user s) w
    = k u s (issue (SELECT TitleSessionsT) w)
    /\ In s (titleSessions (store w))
    /\ TitleSessions.id s = sessionId
    /\ TitleSessions.userId s = User.id u.
Proof.
  intros Hu Hown. rewrite bind_requireUser_signed_in with (u := u) by assumption.
  destruct (getOwnedSession_owned w Hown) as (s & E & Hs).
  exists s. split; [|exact Hs]. unfold bind. now rewrite E.
Qed.

Ltac unfold_actions :=
  unfold createTitleSession, updateTitleSession, listTitleSessions,
    createTitleIdea, updateTitleIdea, deleteTitleIdea, listTitleIdeas in *.

Ltac unfold_handlers :=
  unfold createTitleSession_handler, updateTitleSession_handler,
    listTitleSessions_handler, createTitleIdea_handler,
    updateTitleIdea_handler, deleteTitleIdea_handler,
    listTitleIdeas_handler in *.

Ltac unfold_schemas :=
  unfold CreateTitleSessionInput.schema, UpdateTitleSessionInput.schema,
    ListTitleSessionsInput.schema, CreateTitleIdeaInput.schema,
    UpdateTitleIdeaInput.schema, DeleteTitleIdeaInput.schema,
    ListTitleIdeasInput.schema in *.

(** C1: an idea operation whose input passes its schema, called by a
    signed-in user who owns no session with the supplied [sessionId] (be
    the session absent or another user's), fails with NOT_FOUND and the
    message "Title session not found."; the only statement sent to the
    store is the ownership read on [TitleSessions], and the store is
    unchanged. *)
Theorem C1_unowned_session_not_found r sessionId context u env d :
  ideaSessionId r = Some sessionId ->
  inputIssues r = [] ->
  localsUser context = Some u ->
  ~ owns d (User.id u) sessionId ->
  exec (server r context env) d
  = (Throw (ActionError NOT_FOUND "Title session not found."),
     mkWorld d [SELECT TitleSessionsT]).
Proof.
  intros Hsid Hiss Hu Hno.
  destruct r as [input|input|input|input|input|input|input];
    cbn [ideaSessionId] in Hsid; try discriminate;
    injection Hsid as <-;
    cbn [server inputIssues] in *; unfold_actions; unfold_schemas;
    rewrite parsed_issues in Hiss;
    (erewrite defineAction_accepts
      by (unfold_schemas; rewrite Hiss; reflexivity));
    unfold_handlers; unfold exec;
    apply guard_not_owned with (u := u); assumption.
Qed.

Lemma C1_unowned_session_not_found_witness :
  let other :=
    TitleSessions.mk "session-1" "user-b" None None None None None None
                     1000%Z 1000%Z in
  let d := mkDb [other] [] in
  let context := mkContext (Some (mkLocals (Some (User.mk "user-a")))) in
  let r := ListTitleIdeas (ListTitleIdeasInput.mkRaw "session-1" None None) in
  exec (server r context (mkEnv "uuid-1" 2000%Z)) d
  = (Throw (ActionError NOT_FOUND "Title session not found."),
     mkWorld d [SELECT TitleSessionsT]).
Proof.
  cbv zeta.
  apply C1_unowned_session_not_found
    with (sessionId := "session-1") (u := User.mk "user-a").
  - reflexivity.
  - reflexivity.
  - reflexivity.
  - simpl. intros (s & [<- | []] & _ & Hu). discriminate Hu.
Defined.

(** A session that is absent and a session of another user fail alike. *)
Example absent_and_foreign_session_fail_alike :
  let absent := DeleteTitleIdea (DeleteTitleIdeaInput.mk "idea-1" "session-7") in
  let foreign := DeleteTitleIdea (DeleteTitleIdeaInput.mk "idea-3" "session-2") in
  fst (exec (server absent userA sampleEnv) sampleDb)
  = fst (exec (server foreign userA sampleEnv) sampleDb)
  /\ snd (exec (server absent userA sampleEnv) sampleDb)
     = snd (exec (server foreign userA sampleEnv) sampleDb).
Proof. split; reflexivity. Qed.

(** ** Listing the ideas of a session *)

Lemma eq_string_true {R} (column : R -> string) v r :
  eq_ column v r = true <-> column r = v.
Proof. unfold eq_, sql_eqb, SqlEq_string. apply String.eqb_eq. Qed.

Lemma eq_bool_true {R} (column : R -> bool) r :
  eq_ column true r = column r.
Proof. unfold eq_, sql_eqb, SqlEq_bool. now destruct (column r). Qed.

(** The conjunction the handler builds is the filter of the spec. *)
Lemma listTitleIdeas_filters sessionId (favoritesOnly selectedOnly : bool) i :
  and_ (let filters := [eq_ TitleIdeas.sessionId sessionId] in
        let filters :=
          if favoritesOnly
          then (filters ++ [eq_ TitleIdeas.isFavorite true])%list
          else filters in
        if selectedOnly
        then (filters ++ [eq_ TitleIdeas.isSelected true])%list
        else filters) i
  = listed sessionId favoritesOnly selectedOnly i.
Proof.
  unfold listed, and_.
  destruct favoritesOnly, selectedOnly; cbn;
    rewrite ?eq_bool_true; unfold eq_, sql_eqb, SqlEq_string;
    destruct (String.eqb (TitleIdeas.sessionId i) sessionId),
      (TitleIdeas.isFavorite i), (TitleIdeas.isSelected i); reflexivity.
Qed.

Lemma listed_true sessionId favoritesOnly selectedOnly i :
  listed sessionId favoritesOnly selectedOnly i = true
  <-> TitleIdeas.sessionId i = sessionId
      /\ (favoritesOnly = true -> TitleIdeas.isFavorite i = true)
      /\ (selectedOnly = true -> TitleIdeas.isSelected i = true).
Proof.
  unfold listed. rewrite !andb_true_iff, String.eqb_eq.
  destruct favoritesOnly, selectedOnly,
    (TitleIdeas.isFavorite i), (TitleIdeas.isSelected i); cbn;
    intuition congruence.
Qed.

(** What [listTitleIdeas] does for the owner of the session. *)
Lemma listTitleIdeas_owned sessionId favoritesOnly selectedOnly context u env d :
  sessionId <> "" ->
  localsUser context = Some u ->
  owns d (User.id u) sessionId ->
  exec (listTitleIdeas
          (ListTitleIdeasInput.mkRaw sessionId favoritesOnly selectedOnly)
          context env) d
  = (let items :=
       filter (listed sessionId
                 (ListTitleIdeasInput.orDefault favoritesOnly false)
                 (ListTitleIdeasInput.orDefault selectedOnly false))
              (titleIdeas d) in
     Return (IdeaItems items (length items)),
     mkWorld d [SELECT TitleSessionsT; SELECT TitleIdeasT]).
Proof.
  intros Hsid Hu Hown. unfold listTitleIdeas.
  erewrite defineAction_accepts
    by (unfold ListTitleIdeasInput.schema; cbn;
        rewrite (min1_nonempty _ Hsid); reflexivity).
  unfold listTitleIdeas_handler, exec.
  edestruct (@guard_owned Response context u sessionId (mkWorld d []))
    as (s & -> & _); [exact Hu | exact Hown |].
  cbn [ListTitleIdeasInput.sessionId ListTitleIdeasInput.favoritesOnly
       ListTitleIdeasInput.selectedOnly].
  unfold bind, db_select, ret, issue. cbn.
  rewrite (filter_ext _ _ (listTitleIdeas_filters sessionId _ _)).
  reflexivity.
Qed.

(** C7: for a session the caller owns, [listTitleIdeas] returns exactly
    the ideas of the store whose [sessionId] is the one asked for and that
    satisfy every flag set to true (both flags, when both are true); a
    flag that is false or omitted filters nothing; [total] is the number
    of ideas returned. *)
Theorem C7_listTitleIdeas_conjunctive
    sessionId favoritesOnly selectedOnly context u env d :
  sessionId <> "" ->
  localsUser context = Some u ->
  owns d (User.id u) sessionId ->
  exists items,
    exec (listTitleIdeas
            (ListTitleIdeasInput.mkRaw sessionId favoritesOnly selectedOnly)
            context env) d
    = (Return (IdeaItems items (length items)),
       mkWorld d [SELECT TitleSessionsT; SELECT TitleIdeasT])
    /\ (exists keep, items = filter keep (titleIdeas d))
    /\ forall i,
         In i items
         <-> In i (titleIdeas d)
             /\ TitleIdeas.sessionId i = sessionId
             /\ (favoritesOnly = Some true -> TitleIdeas.isFavorite i = true)
             /\ (selectedOnly = Some true -> TitleIdeas.isSelected i = true).
Proof.
  intros Hsid Hu Hown.
  eexists. split; [apply listTitleIdeas_owned with (u := u); assumption|].
  cbv zeta. split; [eexists; reflexivity|].
  intros i. rewrite filter_In, listed_true.
  destruct favoritesOnly as [[|]|], selectedOnly as [[|]|]; cbn;
    intuition congruence.
Qed.

Lemma C7_listTitleIdeas_conjunctive_witness :
  let s1 := TitleSessions.mk "session-1" "user-a" None None None None None None
                             1000%Z 1000%Z in
  let i1 := TitleIdeas.mk "idea-1" "session-1" "Top 10 Tips" None None
                          true true 1001%Z in
  let i2 := TitleIdeas.mk "idea-2" "session-1" "Ten Tips" None None
                          true false 1002%Z in
  let i3 := TitleIdeas.mk "idea-3" "session-2" "Other" None None
                          true true 1003%Z in
  let d := mkDb [s1] [i1; i2; i3] in
  exists items,
    exec (listTitleIdeas
            (ListTitleIdeasInput.mkRaw "session-1" (Some true) (Some true))
            (mkContext (Some (mkLocals (Some (User.mk "user-a")))))
            (mkEnv "uuid-1" 2000%Z)) d
    = (Return (IdeaItems items (length items)),
       mkWorld d [SELECT TitleSessionsT; SELECT TitleIdeasT])
    /\ (exists keep, items = filter keep (titleIdeas d))
    /\ forall i,
         In i items
         <-> In i (titleIdeas d)
             /\ TitleIdeas.sessionId i = "session-1"
             /\ (Some true = Some true -> TitleIdeas.isFavorite i = true)
             /\ (Some true = Some true -> TitleIdeas.isSelected i = true).
Proof.
  cbv zeta.
  apply C7_listTitleIdeas_conjunctive with (u := User.mk "user-a").
  - discriminate.
  - reflexivity.
  - eexists. split; [left; reflexivity|]. split; reflexivity.
Defined.

(** ** Primary keys *)

Lemma existsb_eqb_false k (ks : list string) :
  existsb (String.eqb k) ks = false <-> forall k', In k' ks -> k' <> k.
Proof.
  induction ks as [|x ks IH]; simpl.
  - split; [intros _ r [] | reflexivity].
  - rewrite orb_false_iff, IH, String.eqb_neq. split.
    + intros [Hx Hl] r [<- | Hr]; [congruence | now apply Hl].
    + intros H. split; [intros E; apply (H x); auto | intros r Hr; apply H; auto].
Qed.

Section Keys.
Variable R : Type.
Variable key : R -> string.

Lemma existsb_insert_check (l : list R) k :
  existsb (fun x => String.eqb (key x) k) l = false <->
  forall x, In x l -> key x <> k.
Proof.
  induction l as [|x l IH]; simpl.
  - split; [intros _ y [] | reflexivity].
  - rewrite orb_false_iff, IH, String.eqb_neq. split.
    + intros [Hx Hl] y [<- | Hy]; [assumption | now apply Hl].
    + intros H. split; [apply H; auto | intros y Hy; apply H; auto].
Qed.

Lemma distinct_cons k ks :
  distinct (k :: ks) = true <->
  (forall k', In k' ks -> k' <> k) /\ distinct ks = true.
Proof.
  simpl. rewrite andb_true_iff, negb_true_iff, existsb_eqb_false. tauto.
Qed.

Lemma distinct_unique (l : list R) a b :
  distinct (map key l) = true ->
  In a l -> In b l -> key a = key b -> a = b.
Proof.
  induction l as [|x l IH]; intros Hd Ha Hb E; [destruct Ha|].
  cbn [map] in Hd. apply distinct_cons in Hd. destruct Hd as [Hx Hl].
  destruct Ha as [<- | Ha], Hb as [<- | Hb].
  - reflexivity.
  - exfalso. apply (Hx (key b)); [now apply in_map | congruence].
  - exfalso. apply (Hx (key a)); [now apply in_map | congruence].
  - now apply IH.
Qed.

(** Under the key constraint a [where] clause that pins the key selects
    the row that has it, once. *)
Lemma distinct_filter (l : list R) (cond : R -> bool) a :
  distinct (map key l) = true ->
  In a l -> cond a = true ->
  (forall r, cond r = true -> key r = key a) ->
  filter cond l = [a].
Proof.
  induction l as [|x l IH]; intros Hd Ha Hc Hk; [destruct Ha|].
  cbn [map] in Hd. apply distinct_cons in Hd. destruct Hd as [Hx Hl].
  assert (Hnone : forall l', (forall r, In r l' -> key r <> key a) ->
                             filter cond l' = []).
  { induction l' as [|y l' IH']; intros H; [reflexivity|]. simpl.
    destruct (cond y) eqn:Ey.
    - exfalso. apply (H y); [now left | now apply Hk].
    - apply IH'. intros r Hr. apply H. now right. }
  simpl. destruct Ha as [<- | Ha].
  - rewrite Hc. f_equal. apply Hnone. intros r Hr E.
    apply (Hx (key r)); [now apply in_map | assumption].
  - destruct (cond x) eqn:Ex.
    + exfalso. apply (Hx (key a)); [now apply in_map | symmetry; now apply Hk].
    + now apply IH.
Qed.

Lemma distinct_snoc (l : list R) r :
  distinct (map key l) = true ->
  (forall x, In x l -> key x <> key r) ->
  distinct (map key (l ++ [r])) = true.
Proof.
  induction l as [|x l IH]; intros Hd Hf; [reflexivity|].
  cbn [map app] in *. apply distinct_cons in Hd. destruct Hd as [Hx Hl].
  apply distinct_cons. split.
  - intros k Hk. rewrite map_app in Hk. apply in_app_or in Hk.
    destruct Hk as [Hk | [<- | []]]; [now apply Hx|].
    intros E. apply (Hf x); [now left | now symmetry].
  - apply IH; [assumption | intros y Hy; apply Hf; now right].
Qed.

Lemma distinct_update (l : list R) (set : R -> R) (cond : R -> bool) :
  (forall r, key (set r) = key r) ->
  distinct (map key l) = true ->
  distinct (map key (map (fun r => if cond r then set r else r) l)) = true.
Proof.
  intros Hset Hd. rewrite map_map.
  erewrite map_ext; [exact Hd|].
  intros r. simpl. destruct (cond r); [apply Hset | reflexivity].
Qed.

Lemma distinct_delete (l : list R) (cond : R -> bool) :
  distinct (map key l) = true ->
  distinct (map key (filter cond l)) = true.
Proof.
  induction l as [|x l IH]; intros Hd; [reflexivity|].
  cbn [map] in Hd. apply distinct_cons in Hd. destruct Hd as [Hx Hl].
  simpl. destruct (cond x); [|now apply IH].
  cbn [map]. apply distinct_cons. split; [|now apply IH].
  intros k Hk. apply Hx. apply in_map_iff in Hk.
  destruct Hk as (r & <- & Hr). apply in_map.
  apply filter_In in Hr. tauto.
Qed.
End Keys.

(** ** Successful calls *)

(** The two guards in front of a continuation, case by case. *)
Lemma guard_cases {A} context sessionId w
    (k : User.t -> TitleSessions.row -> Action A) :
  (user <- requireUser context ;;
   s <- getOwnedSession sessionId (User.id user) ;;
   k user s) w
  = match localsUser context with
    | None => (Throw unauthorized, w)
    | Some u =>
        match filter (and_ [eq_ TitleSessions.id sessionId;
                            eq_ TitleSessions.userId (User.id u)])
                     (titleSessions (store w)) with
        | [] => (Throw sessionNotFound, issue (SELECT TitleSessionsT) w)
        | s :: _ => k u s (issue (SELECT TitleSessionsT) w)
        end
    end.
Proof.
  unfold bind, requireUser, getOwnedSession, bind, db_select, ret, throw.
  destruct (localsUser context) as [u|]; [|reflexivity]. simpl.
  destruct (filter _ (titleSessions (store w))); reflexivity.
Qed.

Lemma first_owned d sessionId userId s rest :
  filter (and_ [eq_ TitleSessions.id sessionId;
                eq_ TitleSessions.userId userId]) (titleSessions d)
  = s :: rest ->
  In s (titleSessions d)
  /\ TitleSessions.id s = sessionId /\ TitleSessions.userId s = userId.
Proof.
  intros E. apply (owned_filter d userId sessionId). rewrite E. now left.
Qed.

(** A successful [createTitleIdea], step by step. *)
Lemma createTitleIdea_returns input context env d resp w :
  exec (createTitleIdea input context env) d = (Return resp, w) ->
  let idea :=
    TitleIdeas.stored
      (TitleIdeas.mk (randomUUID env)
         (CreateTitleIdeaInput.sessionId input)
         (CreateTitleIdeaInput.titleText input)
         (CreateTitleIdeaInput.tone input)
         (CreateTitleIdeaInput.style input)
         (spread (CreateTitleIdeaInput.isFavorite input) false)
         (spread (CreateTitleIdeaInput.isSelected input) false)
         (now env)) in
  CreateTitleIdeaInput.sessionId input <> ""
  /\ CreateTitleIdeaInput.titleText input <> ""
  /\ (exists u, localsUser context = Some u
                /\ owns d (User.id u) (CreateTitleIdeaInput.sessionId input))
  /\ (forall x, In x (titleIdeas d) -> TitleIdeas.id x <> randomUUID env)
  /\ resp = IdeaData (Some idea)
  /\ w = mkWorld (mkDb (titleSessions d) (titleIdeas d ++ [idea]))
                 [SELECT TitleSessionsT; INSERT TitleIdeasT].
Proof.
  unfold createTitleIdea, defineAction, CreateTitleIdeaInput.schema, exec.
  destruct (min1 "sessionId" _ ++ min1 "titleText" _)%list eqn:Eiss;
    cbn [parsed]; [|discriminate].
  apply app_eq_nil in Eiss. destruct Eiss as [E1 E2].
  apply min1_clean in E1, E2.
  unfold createTitleIdea_handler. rewrite guard_cases.
  destruct (localsUser context) as [u|]; [|discriminate].
  cbn [store].
  destruct (filter _ (titleSessions d)) as [|s rest] eqn:Eown; [discriminate|].
  apply first_owned in Eown.
  unfold bind, db_insert, ret, issue. cbn.
  destruct (existsb _ (titleIdeas d)) eqn:Efresh; [discriminate|].
  intros [= <- <-]. cbv zeta.
  pose proof (proj1 (existsb_insert_check TitleIdeas.id _ _) Efresh) as Hfresh.
  repeat split; try assumption.
  exists u. split; [reflexivity|]. now exists s.
Qed.




(** A table after an update, row by row. *)
Lemma update_rows {R} (set : R -> R) (cond : R -> bool) (l : list R) n r :
  nth_error l n = Some r ->
  nth_error (map (fun r => if cond r then set r else r) l) n
  = Some (if cond r then set r else r).
Proof. intros H. rewrite nth_error_map, H. reflexivity. Qed.

(** A successful [updateTitleSession], step by step. *)
Lemma updateTitleSession_returns input context env d resp w :
  exec (updateTitleSession input context env) d = (Return resp, w) ->
  let hit := eq_ TitleSessions.id (UpdateTitleSessionInput.id input) in
  let set := fun r => TitleSessions.stored (setTitleSession input (now env) r) in
  (exists u s, localsUser context = Some u
               /\ In s (titleSessions d)
               /\ TitleSessions.id s = UpdateTitleSessionInput.id input
               /\ TitleSessions.userId s = User.id u)
  /\ resp = SessionData (hd_error (map set (filter hit (titleSessions d))))
  /\ w = mkWorld (mkDb (map (fun r => if hit r then set r else r)
                            (titleSessions d))
                       (titleIdeas d))
                 [SELECT TitleSessionsT;
                  UPDATE TitleSessionsT (length (filter hit (titleSessions d)))].
Proof.
  unfold updateTitleSession, defineAction, UpdateTitleSessionInput.schema, exec.
  destruct (min1 "id" _ ++ refine_ _ _)%list eqn:Eiss;
    cbn [parsed]; [|discriminate].
  unfold updateTitleSession_handler. rewrite guard_cases.
  destruct (localsUser context) as [u|]; [|discriminate].
  cbn [store].
  destruct (filter _ (titleSessions d)) as [|s rest] eqn:Eown; [discriminate|].
  apply first_owned in Eown.
  unfold bind, db_update, ret, issue. cbn.
  intros [= <- <-]. cbv zeta.
  repeat split. now exists u, s.
Qed.


Lemma sampleDb_keys : primaryKeysHold sampleDb.
Proof. split; reflexivity. Qed.

Lemma sampleDb_textKept : textKept sampleDb.
Proof.
  split.
  - intros s [<- | [<- | []]]; reflexivity.
  - intros i [<- | [<- | [<- | []]]]; reflexivity.
Qed.



Lemma idea_filter d id sessionId i :
  In i (filter (and_ [eq_ TitleIdeas.id id; eq_ TitleIdeas.sessionId sessionId])
               (titleIdeas d))
  <-> In i (titleIdeas d)
      /\ TitleIdeas.id i = id /\ TitleIdeas.sessionId i = sessionId.
Proof.
  rewrite filter_In. unfold and_, eq_, sql_eqb, SqlEq_string. simpl.
  rewrite andb_true_r, andb_true_iff, !String.eqb_eq. tauto.
Qed.

(** A successful [updateTitleIdea], step by step. *)
Lemma updateTitleIdea_returns input context env d resp w :
  exec (updateTitleIdea input context env) d = (Return resp, w) ->
  let hit := eq_ TitleIdeas.id (UpdateTitleIdeaInput.id input) in
  let set := fun r => TitleIdeas.stored (setTitleIdea input r) in
  (exists u, localsUser context = Some u
             /\ owns d (User.id u) (UpdateTitleIdeaInput.sessionId input))
  /\ (exists i, In i (titleIdeas d)
                /\ TitleIdeas.id i = UpdateTitleIdeaInput.id input
                /\ TitleIdeas.sessionId i = UpdateTitleIdeaInput.sessionId input)
  /\ resp = IdeaData (hd_error (map set (filter hit (titleIdeas d))))
  /\ w = mkWorld (mkDb (titleSessions d)
                       (map (fun r => if hit r then set r else r)
                            (titleIdeas d)))
                 [SELECT TitleSessionsT; SELECT TitleIdeasT;
                  UPDATE TitleIdeasT (length (filter hit (titleIdeas d)))].
Proof.
  unfold updateTitleIdea, defineAction, UpdateTitleIdeaInput.schema, exec.
  destruct (min1 "id" _ ++ min1 "sessionId" _ ++ refine_ _ _)%list eqn:Eiss;
    cbn [parsed]; [|discriminate].
  unfold updateTitleIdea_handler. rewrite guard_cases.
  destruct (localsUser context) as [u|]; [|discriminate].
  cbn [store].
  destruct (filter _ (titleSessions d)) as [|s rest] eqn:Eown; [discriminate|].
  apply first_owned in Eown.
  unfold bind at 1. unfold db_select at 1. cbn [store issue tableName rowsOf
    TitleIdeasTable].
  destruct (filter _ (titleIdeas d)) as [|i more] eqn:Eidea; [discriminate|].
  assert (Hi : In i (filter (and_ [eq_ TitleIdeas.id (UpdateTitleIdeaInput.id input);
                                   eq_ TitleIdeas.sessionId
                                       (UpdateTitleIdeaInput.sessionId input)])
                            (titleIdeas d)))
    by (rewrite Eidea; now left).
  apply idea_filter in Hi.
  unfold bind, db_update, ret. cbn.
  intros [= <- <-]. cbv zeta.
  repeat split; [exists u; split; [reflexivity | now exists s] | now exists i].
Qed.




(** ** Deleting an idea *)

Lemma filter_split_length {R} (p c : R -> bool) (l : list R) :
  length (filter p l)
  = length (filter p (filter (fun r => negb (c r)) l))
    + length (filter p (filter c l)).
Proof.
  induction l as [|x l IH]; [reflexivity|]. simpl.
  destruct (c x), (p x) eqn:Ep; simpl; rewrite ?Ep; simpl; lia.
Qed.

(** What [deleteTitleIdea] does for the owner of the session. *)
Lemma deleteTitleIdea_owned id sessionId context u env d :
  id <> "" -> sessionId <> "" ->
  localsUser context = Some u ->
  owns d (User.id u) sessionId ->
  exec (deleteTitleIdea (DeleteTitleIdeaInput.mk id sessionId) context env) d
  = (match filter (and_ [eq_ TitleIdeas.id id;
                         eq_ TitleIdeas.sessionId sessionId])
                  (titleIdeas d) with
     | [] => Throw ideaNotFound
     | _ :: _ => Return Success
     end,
     mkWorld
       (mkDb (titleSessions d)
             (filter (fun r => negb (and_ [eq_ TitleIdeas.id id;
                                           eq_ TitleIdeas.sessionId sessionId]
                                          r))
                     (titleIdeas d)))
       [SELECT TitleSessionsT;
        DELETE TitleIdeasT
               (length (filter (and_ [eq_ TitleIdeas.id id;
                                      eq_ TitleIdeas.sessionId sessionId])
                               (titleIdeas d)))]).
Proof.
  intros Hid Hsid Hu Hown. cbv zeta. unfold deleteTitleIdea.
  erewrite defineAction_accepts
    by (unfold DeleteTitleIdeaInput.schema; cbn;
        rewrite (min1_nonempty _ Hid), (min1_nonempty _ Hsid); reflexivity).
  unfold deleteTitleIdea_handler, exec.
  edestruct (@guard_owned Response context u sessionId (mkWorld d []))
    as (s & -> & _); [exact Hu | exact Hown |].
  cbn [DeleteTitleIdeaInput.id DeleteTitleIdeaInput.sessionId].
  unfold bind, db_delete, ret, throw, issue. cbn.
  destruct (filter _ (titleIdeas d)); reflexivity.
Qed.

(** C8: for the owner of the session, on a store that satisfies its key
    constraint, [deleteTitleIdea] fails with NOT_FOUND exactly when no
    idea of the store has both the given [id] and [sessionId]; when one
    has, the call succeeds, the store keeps exactly the ideas with another
    id, and [listTitleIdeas] for that session counts one idea fewer after
    the call than before it. *)
Theorem C8_deleteTitleIdea_exact id sessionId context u env d :
  id <> "" -> sessionId <> "" ->
  localsUser context = Some u ->
  owns d (User.id u) sessionId ->
  primaryKeysHold d ->
  let out :=
    exec (deleteTitleIdea (DeleteTitleIdeaInput.mk id sessionId) context env)
         d in
  let list := ListTitleIdeasInput.mkRaw sessionId None None in
  (fst out = Throw (ActionError NOT_FOUND "Title idea not found.")
   <-> ~ ideaAt d id sessionId)
  /\ (ideaAt d id sessionId ->
      fst out = Return Success
      /\ (forall i, In i (titleIdeas (store (snd out)))
                    <-> In i (titleIdeas d) /\ TitleIdeas.id i <> id)
      /\ exists before after,
           fst (exec (listTitleIdeas list context env) d)
           = Return (IdeaItems before (S (length after)))
           /\ fst (exec (listTitleIdeas list context env) (store (snd out)))
              = Return (IdeaItems after (length after))).
Proof.
  intros Hid Hsid Hu Hown [_ Hkeys]. cbv zeta.
  rewrite deleteTitleIdea_owned with (u := u); [|assumption ..].
  cbn [fst snd store titleIdeas].
  set (cond := and_ [eq_ TitleIdeas.id id; eq_ TitleIdeas.sessionId sessionId]).
  assert (Hat : ideaAt d id sessionId <-> filter cond (titleIdeas d) <> []).
  { split.
    - intros (i & Hi) E. apply (idea_filter d id sessionId) in Hi.
      fold cond in Hi. rewrite E in Hi. destruct Hi.
    - destruct (filter cond (titleIdeas d)) as [|i rest] eqn:E; [congruence|].
      intros _. exists i. apply (idea_filter d id sessionId).
      fold cond. rewrite E. now left. }
  split.
  - rewrite Hat. destruct (filter cond (titleIdeas d)); split.
    + intros _ H. now apply H.
    + reflexivity.
    + discriminate.
    + intros H. exfalso. apply H. discriminate.
  - intros Hidea. pose proof Hidea as (a & Ha & Haid & Hasid).
    assert (Hca : cond a = true).
    { unfold cond, and_. cbn. rewrite andb_true_r, andb_true_iff.
      split; now apply eq_string_true. }
    assert (Hone : filter cond (titleIdeas d) = [a]).
    { apply (distinct_filter TitleIdeas.id); try assumption.
      intros r Hr. unfold cond, and_ in Hr. cbn in Hr.
      rewrite andb_true_r, andb_true_iff in Hr. destruct Hr as [Hr _].
      apply eq_string_true in Hr. congruence. }
    rewrite Hone. split; [reflexivity|]. split.
    + intros i. rewrite filter_In, negb_true_iff. split.
      * intros [Hin Hc]. split; [assumption|]. intros E.
        assert (i = a)
          by (apply (distinct_unique TitleIdeas.id (titleIdeas d));
              [assumption .. | congruence]).
        subst i. congruence.
      * intros [Hin Hne]. split; [assumption|].
        destruct (cond i) eqn:Ec; [|reflexivity].
        exfalso. apply Hne. unfold cond, and_ in Ec. cbn in Ec.
        rewrite andb_true_r, andb_true_iff in Ec. destruct Ec as [Ec _].
        now apply eq_string_true in Ec.
    + assert (Hown' : owns (mkDb (titleSessions d)
                                 (filter (fun r => negb (cond r)) (titleIdeas d)))
                           (User.id u) sessionId) by exact Hown.
      rewrite listTitleIdeas_owned with (u := u) (d := d); [|assumption ..].
      rewrite listTitleIdeas_owned with (u := u); [|assumption ..].
      cbv zeta. cbn [fst titleIdeas ListTitleIdeasInput.orDefault].
      do 2 eexists. split; [|reflexivity]. f_equal. f_equal.
      rewrite (filter_split_length (listed sessionId false false) cond).
      rewrite Hone. cbn [filter].
      assert (Hl : listed sessionId false false a = true)
        by (apply listed_true; repeat split; [assumption | discriminate ..]).
      rewrite Hl. cbn [length]. lia.
Qed.

Lemma C8_deleteTitleIdea_exact_witness :
  let out :=
    exec (deleteTitleIdea (DeleteTitleIdeaInput.mk "idea-2" "session-1")
                          userA sampleEnv)
         sampleDb in
  let list := ListTitleIdeasInput.mkRaw "session-1" None None in
  (fst out = Throw (ActionError NOT_FOUND "Title idea not found.")
   <-> ~ ideaAt sampleDb "idea-2" "session-1")
  /\ (ideaAt sampleDb "idea-2" "session-1" ->
      fst out = Return Success
      /\ (forall i, In i (titleIdeas (store (snd out)))
                    <-> In i (titleIdeas sampleDb)
                        /\ TitleIdeas.id i <> "idea-2")
      /\ exists before after,
           fst (exec (listTitleIdeas list userA sampleEnv) sampleDb)
           = Return (IdeaItems before (S (length after)))
           /\ fst (exec (listTitleIdeas list userA sampleEnv)
                        (store (snd out)))
              = Return (IdeaItems after (length after))).
Proof.
  cbv zeta.
  apply C8_deleteTitleIdea_exact with (u := User.mk "user-a").
  - discriminate.
  - discriminate.
  - reflexivity.
  - exists session1. split; [now left | split; reflexivity].
  - split; reflexivity.
Defined.

(** ** Failed calls leave the store alone *)

(** The stores one call can leave behind. *)
Lemma server_store r context env d d' :
  store (snd (exec (server r context env) d)) = d' ->
  d' = d
  \/ (exists s, d' = mkDb (titleSessions d ++ [s]) (titleIdeas d)
                /\ forall x, In x (titleSessions d) ->
                             TitleSessions.id x <> TitleSessions.id s)
  \/ (exists (set : TitleSessions.row -> TitleSessions.row) (cond : _ -> bool),
        d' = mkDb (map (fun x => if cond x then set x else x) (titleSessions d))
                  (titleIdeas d)
        /\ forall x, TitleSessions.id (set x) = TitleSessions.id x)
  \/ (exists i, d' = mkDb (titleSessions d) (titleIdeas d ++ [i])
                /\ forall x, In x (titleIdeas d) ->
                             TitleIdeas.id x <> TitleIdeas.id i)
  \/ (exists (set : TitleIdeas.row -> TitleIdeas.row) (cond : _ -> bool),
        d' = mkDb (titleSessions d)
                  (map (fun x => if cond x then set x else x) (titleIdeas d))
        /\ forall x, TitleIdeas.id (set x) = TitleIdeas.id x)
  \/ (exists cond, d' = mkDb (titleSessions d) (filter cond (titleIdeas d))).
Proof.
  intros H.
  destruct r as [input|input|input|input|input|input|input];
    cbn [server] in H; unfold_actions; unfold defineAction in H;
    unfold_schemas; unfold exec in H;
    match type of H with
    | context [parsed ?iss _] => destruct iss; cbn [parsed] in H
    end;
    try (left; symmetry; exact H);
    unfold_handlers;
    first [rewrite guard_cases in H
          | unfold bind at 1 in H; unfold requireUser in H];
    destruct (localsUser context) as [u|]; try (left; symmetry; exact H);
    cbn [store] in H;
    try (destruct (filter _ (titleSessions d)) as [|s rest];
         [left; symmetry; exact H|]).
  - (* createTitleSession *)
    unfold bind, db_insert, ret, issue in H. cbn in H.
    destruct (existsb _ (titleSessions d)) eqn:E; [left; symmetry; exact H|].
    right. left. eexists. split; [symmetry; exact H|].
    exact (proj1 (existsb_insert_check TitleSessions.id _ _) E).
  - (* updateTitleSession *)
    unfold bind, db_update, ret, issue in H. cbn in H.
    right. right. left. do 2 eexists. split; [symmetry; exact H|]. reflexivity.
  - (* createTitleIdea *)
    unfold bind, db_insert, ret, issue in H. cbn in H.
    destruct (existsb _ (titleIdeas d)) eqn:E; [left; symmetry; exact H|].
    do 3 right. left. eexists. split; [symmetry; exact H|].
    exact (proj1 (existsb_insert_check TitleIdeas.id _ _) E).
  - (* updateTitleIdea *)
    unfold bind, db_select, db_update, ret, throw, issue in H. cbn in H.
    destruct (filter (and_ _) (titleIdeas d)) as [|i more];
      [left; symmetry; exact H|].
    do 4 right. left. do 2 eexists. split; [symmetry; exact H|]. reflexivity.
  - (* deleteTitleIdea *)
    unfold bind, db_delete, ret, throw, issue in H. cbn in H.
    destruct (Nat.eqb _ 0); do 5 right; eexists; symmetry; exact H.
  - (* listTitleIdeas *)
    left. symmetry. exact H.
Qed.

Lemma delete_nothing {R} (cond : R -> bool) (l : list R) :
  length (filter cond l) = 0 ->
  filter (fun r => negb (cond r)) l = l.
Proof.
  induction l as [|x l IH]; [reflexivity|]. simpl.
  destruct (cond x); simpl; [discriminate|].
  intros H. f_equal. now apply IH.
Qed.

Lemma db_eta (d : Db) : mkDb (titleSessions d) (titleIdeas d) = d.
Proof. now destruct d. Qed.

Ltac thrown H :=
  injection H as <- <-;
  split; [reflexivity|];
  intros Hkind; split; [reflexivity | try discriminate];
  try (exfalso; eapply Hkind; reflexivity).

(** C10: when one of the seven actions throws, the store after the call
    is the store before it; when what it throws is UNAUTHORIZED, an input
    error or NOT_FOUND, every statement it sent to the store was a read or
    a delete that affected zero rows, and only [deleteTitleIdea] sent a
    delete. *)
Theorem C10_errors_leave_store_unchanged r context env d e w :
  exec (server r context env) d = (Throw e, w) ->
  store w = d
  /\ ((forall t, e <> ConstraintError t) ->
      forallb changesNothing (trace w) = true
      /\ (existsb isDelete (trace w) = true ->
          exists input, r = DeleteTitleIdea input)).
Proof.
  intros H.
  destruct r as [input|input|input|input|input|input|input];
    cbn [server] in H; unfold_actions; unfold defineAction in H;
    unfold_schemas; unfold exec in H;
    match type of H with
    | context [parsed ?iss _] => destruct iss; cbn [parsed] in H
    end;
    try (unfold throw in H; thrown H);
    unfold_handlers;
    first [rewrite guard_cases in H
          | unfold bind at 1 in H; unfold requireUser in H];
    destruct (localsUser context) as [u|];
    try (unfold throw in H; thrown H);
    cbn [store] in H;
    try (destruct (filter _ (titleSessions d)) as [|s rest];
         [thrown H|]).
  - (* createTitleSession *)
    unfold bind, db_insert, ret, issue in H. cbn in H.
    destruct (existsb _ (titleSessions d)); [|discriminate].
    injection H as <- <-. split; [reflexivity|].
    intros Hkind. exfalso. now apply (Hkind TitleSessionsT).
  - (* updateTitleSession *)
    unfold bind, db_update, ret, issue in H. cbn in H. discriminate.
  - (* listTitleSessions *)
    unfold bind, db_select, ret, issue in H. cbn in H. discriminate.
  - (* createTitleIdea *)
    unfold bind, db_insert, ret, issue in H. cbn in H.
    destruct (existsb _ (titleIdeas d)); [|discriminate].
    injection H as <- <-. split; [reflexivity|].
    intros Hkind. exfalso. now apply (Hkind TitleIdeasT).
  - (* updateTitleIdea *)
    unfold bind, db_select, db_update, ret, throw, issue in H. cbn in H.
    destruct (filter (and_ _) (titleIdeas d)) as [|i more]; [|discriminate].
    thrown H.
  - (* deleteTitleIdea *)
    unfold bind, db_delete, ret, throw, issue in H.
    cbn [store trace rowsOf withRows tableName TitleIdeasTable
         titleIdeas titleSessions app] in H.
    destruct (Nat.eqb _ 0) eqn:E; [|discriminate].
    apply Nat.eqb_eq in E.
    injection H as <- <-. cbn [store trace]. split.
    + transitivity (mkDb (titleSessions d) (titleIdeas d)); [|apply db_eta].
      f_equal. exact (delete_nothing _ _ E).
    + rewrite E. intros _. split; [reflexivity|]. intros _. now exists input.
  - (* listTitleIdeas *)
    unfold bind, db_select, ret, issue in H. cbn in H. discriminate.
Qed.

Lemma C10_errors_leave_store_unchanged_witness :
  let r := DeleteTitleIdea (DeleteTitleIdeaInput.mk "idea-7" "session-1") in
  let out := exec (server r userA sampleEnv) sampleDb in
  store (snd out) = sampleDb
  /\ ((forall t, ideaNotFound <> ConstraintError t) ->
      forallb changesNothing (trace (snd out)) = true
      /\ (existsb isDelete (trace (snd out)) = true ->
          exists input, r = DeleteTitleIdea input)).
Proof.
  cbv zeta.
  apply C10_errors_leave_store_unchanged
    with (context := userA) (env := sampleEnv).
  reflexivity.
Defined.

(** ** Reachable stores *)

Lemma reachable_run calls d : reachable d -> reachable (run calls d).
Proof.
  revert d. induction calls as [|c calls IH]; intros d Hd; [exact Hd|].
  simpl. apply IH. unfold after. now apply reachable_step.
Qed.

(** Every store the actions can build satisfies the key constraint of
    both tables. *)
Lemma reachable_primaryKeysHold d : reachable d -> primaryKeysHold d.
Proof.
  induction 1 as [|d r context env _ [IHs IHi]]; [split; reflexivity|].
  destruct (server_store r context env d eq_refl)
    as [-> | [(s & -> & Hs) | [(set & cond & -> & Hs) | [(i & -> & Hi)
       | [(set & cond & -> & Hi) | (cond & ->)]]]]];
    split; cbn [titleSessions titleIdeas]; try assumption.
  - now apply distinct_snoc.
  - now apply distinct_update.
  - now apply distinct_snoc.
  - now apply distinct_update.
  - now apply distinct_delete.
Qed.

(** ** The title text of an idea *)

(** C2, where the code departs from it: [createTitleIdea] rejects an empty
    [titleText] before any statement reaches the store, but
    [updateTitleIdea] accepts one and stores it; after a session and an
    idea are created and the idea's [titleText] is updated to the empty
    string, the store, reachable from the empty one, holds an idea whose
    [titleText] is empty. *)
Theorem C2_updateTitleIdea_stores_empty_titleText :
  (forall sessionId tone style isFavorite isSelected context env d,
     exists issues,
       exec (createTitleIdea
               (CreateTitleIdeaInput.mk sessionId "" tone style
                                        isFavorite isSelected)
               context env) d
       = (Throw (ActionInputError issues), mkWorld d [])
       /\ In (too_small "titleText") issues)
  /\ let calls :=
       [mkCall (CreateTitleSession
                  (CreateTitleSessionInput.mk None None None None None None))
               userA (mkEnv "session-1" 1000%Z);
        mkCall (CreateTitleIdea
                  (CreateTitleIdeaInput.mk "session-1" "Top 10 Tips"
                                           None None None None))
               userA (mkEnv "idea-1" 1201%Z);
        mkCall (UpdateTitleIdea
                  (UpdateTitleIdeaInput.mk "idea-1" "session-1" (Some "")
                                           None None None None))
               userA (mkEnv "unused" 1300%Z)] in
     reachable (run calls emptyDb)
     /\ titleIdeas (run calls emptyDb)
        = [TitleIdeas.mk "idea-1" "session-1" "" None None false false 1201%Z].
Proof.
  split.
  - intros. eexists. split.
    + unfold createTitleIdea.
      eapply defineAction_rejects; [reflexivity|].
      cbn. intros E. apply app_eq_nil in E. destruct E; discriminate.
    + cbn. apply in_or_app. right. now left.
  - cbv zeta. split; [apply reachable_run, reachable_empty | reflexivity].
Qed.

(** ** What the schemas let through *)

Lemma min1_issue path v : min1 path v = [] <-> v <> "".
Proof.
  split; [apply min1_clean | apply min1_nonempty].
Qed.

Lemma defined_true {A} (v : option A) : defined v = true <-> v <> None.
Proof. destruct v; simpl; split; congruence. Qed.

Lemma refine_issue check message : refine_ check message = [] <-> check = true.
Proof. unfold refine_. destruct check; split; congruence. Qed.

(** The schema of an action raises no issue exactly on the well-formed
    inputs: non-empty [id], [sessionId] and (on create) [titleText], and
    at least one field on an update; [createTitleSession] and
    [listTitleSessions] accept every input. *)
Theorem schemas_accept_wellFormed r : inputIssues r = [] <-> wellFormed r.
Proof.
  destruct r as [input|input|input|input|input|input|input];
    cbn [inputIssues wellFormed]; unfold_schemas; rewrite parsed_issues.
  - tauto.
  - split.
    + intros E. apply app_eq_nil in E. destruct E as [E1 E2].
      apply min1_issue in E1. apply refine_issue in E2.
      rewrite !orb_true_iff, !defined_true in E2. tauto.
    + intros [H1 H2]. rewrite min1_nonempty by assumption. cbn [app].
      apply refine_issue. rewrite !orb_true_iff, !defined_true. tauto.
  - tauto.
  - split.
    + intros E. apply app_eq_nil in E. destruct E as [E1 E2].
      split; eapply min1_clean; eassumption.
    + intros [H1 H2]. now rewrite !min1_nonempty by assumption.
  - split.
    + intros E. apply app_eq_nil in E. destruct E as [E1 E].
      apply app_eq_nil in E. destruct E as [E2 E3].
      apply min1_issue in E1, E2. apply refine_issue in E3.
      rewrite !orb_true_iff, !defined_true in E3. tauto.
    + intros (H1 & H2 & H3). rewrite !min1_nonempty by assumption.
      cbn [app]. apply refine_issue.
      rewrite !orb_true_iff, !defined_true. tauto.
  - split.
    + intros E. apply app_eq_nil in E. destruct E as [E1 E2].
      split; eapply min1_clean; eassumption.
    + intros [H1 H2]. now rewrite !min1_nonempty by assumption.
  - apply min1_issue.
Qed.

Lemma server_rejects r context env d :
  inputIssues r <> [] ->
  exec (server r context env) d
  = (Throw (ActionInputError (inputIssues r)), mkWorld d []).
Proof.
  intros H.
  destruct r as [input|input|input|input|input|input|input];
    cbn [server inputIssues] in *; unfold_actions; unfold_schemas;
    rewrite parsed_issues in *;
    try congruence;
    (eapply defineAction_rejects; [reflexivity | assumption]).
Qed.

Lemma returns_wellFormed r context env d resp w :
  exec (server r context env) d = (Return resp, w) -> inputIssues r = [].
Proof.
  intros H. destruct (inputIssues r) as [|x l] eqn:E; [reflexivity|].
  rewrite server_rejects in H by (rewrite E; discriminate). discriminate.
Qed.

(** An input the schema rejects stops the call for every caller, signed
    in or not: the call throws the input error with exactly the issues of
    the schema, no statement reaches the store and the store is
    unchanged. *)
Theorem input_errors_come_first r context env d :
  inputIssues r <> [] ->
  exec (server r context env) d
  = (Throw (ActionInputError (inputIssues r)), mkWorld d []).
Proof.
  intros H.
  destruct r as [input|input|input|input|input|input|input];
    cbn [server inputIssues] in *; unfold_actions; unfold_schemas;
    rewrite parsed_issues in *.
  - congruence.
  - eapply defineAction_rejects; [reflexivity | assumption].
  - congruence.
  - eapply defineAction_rejects; [reflexivity | assumption].
  - eapply defineAction_rejects; [reflexivity | assumption].
  - eapply defineAction_rejects; [reflexivity | assumption].
  - eapply defineAction_rejects; [reflexivity | assumption].
Qed.

Lemma input_errors_come_first_witness :
  let r := CreateTitleIdea
             (CreateTitleIdeaInput.mk "" "" None None None None) in
  inputIssues r <> []
  /\ exec (server r userA sampleEnv) sampleDb
     = (Throw (ActionInputError [too_small "sessionId"; too_small "titleText"]),
        mkWorld sampleDb []).
Proof.
  cbv zeta. split; [discriminate|].
  apply (@input_errors_come_first
           (CreateTitleIdea (CreateTitleIdeaInput.mk "" "" None None None None))
           userA sampleEnv sampleDb).
  discriminate.
Defined.

(** ** Session operations *)

Lemma createTitleSession_signed_in input context u env d :
  localsUser context = Some u ->
  exec (createTitleSession input context env) d
  = if existsb (fun x => String.eqb (TitleSessions.id x) (randomUUID env))
               (titleSessions d)
    then (Throw (ConstraintError TitleSessionsT),
          mkWorld d [INSERT TitleSessionsT])
    else (Return
            (SessionData
               (Some (TitleSessions.stored
                        (TitleSessions.mk (randomUUID env) (User.id u)
                           (CreateTitleSessionInput.contentType input)
                           (CreateTitleSessionInput.workingTitle input)
                           (CreateTitleSessionInput.topic input)
                           (CreateTitleSessionInput.targetAudience input)
                           (CreateTitleSessionInput.language input)
                           (CreateTitleSessionInput.notes input)
                           (now env) (now env))))),
          mkWorld
            (mkDb (titleSessions d
                   ++ [TitleSessions.stored
                         (TitleSessions.mk (randomUUID env) (User.id u)
                            (CreateTitleSessionInput.contentType input)
                            (CreateTitleSessionInput.workingTitle input)
                            (CreateTitleSessionInput.topic input)
                            (CreateTitleSessionInput.targetAudience input)
                            (CreateTitleSessionInput.language input)
                            (CreateTitleSessionInput.notes input)
                            (now env) (now env))])
                  (titleIdeas d))
            [INSERT TitleSessionsT]).
Proof.
  intros Hu. unfold createTitleSession, defineAction,
    CreateTitleSessionInput.schema, exec. cbn [parsed].
  unfold createTitleSession_handler.
  rewrite bind_requireUser_signed_in with (u := u) by assumption.
  unfold bind, db_insert, ret, issue. cbn.
  destruct (existsb _ (titleSessions d)); reflexivity.
Qed.

Lemma server_anonymous r context env d :
  localsUser context = None ->
  exec (server r context env) d
  = (Throw match inputIssues r with
           | [] => unauthorized
           | _ :: _ => ActionInputError (inputIssues r)
           end,
     mkWorld d []).
Proof.
  intros Hanon.
  destruct r as [input|input|input|input|input|input|input];
    cbn [server inputIssues]; unfold_actions;
    (eapply anonymous_call; [reflexivity|]);
    intros data w; unfold_handlers;
    apply bind_requireUser_anonymous; assumption.
Qed.

Lemma createTitleSession_anonymous input context env d :
  localsUser context = None ->
  exec (createTitleSession input context env) d
  = (Throw unauthorized, mkWorld d []).
Proof.
  intros H.
  exact (@server_anonymous (CreateTitleSession input) context env d H).
Qed.



(** [createTitleSession] returns a session exactly when the caller is
    signed in and the generated id is carried by no session of the store;
    nothing about the input can make it fail. *)
Theorem createTitleSession_succeeds_iff input context env d :
  (exists resp w, exec (createTitleSession input context env) d
                  = (Return resp, w))
  <-> (exists u, localsUser context = Some u)
      /\ forall x, In x (titleSessions d) ->
                   TitleSessions.id x <> randomUUID env.
Proof.
  split.
  - intros (resp & w & H).
    destruct (localsUser context) as [u|] eqn:Hu.
    + split; [now exists u|].
      rewrite createTitleSession_signed_in with (u := u) in H by assumption.
      destruct (existsb _ (titleSessions d)) eqn:E; [discriminate|].
      exact (proj1 (existsb_insert_check TitleSessions.id _ _) E).
    + rewrite createTitleSession_anonymous in H by assumption.
      discriminate.
  - intros [(u & Hu) Hfresh].
    rewrite createTitleSession_signed_in with (u := u) by assumption.
    rewrite (proj2 (existsb_insert_check TitleSessions.id _ _) Hfresh).
    eauto.
Qed.

Lemma listTitleSessions_signed_in input context u env d :
  localsUser context = Some u ->
  exec (listTitleSessions input context env) d
  = (Return (SessionItems (sessionsOf d (User.id u))
                          (length (sessionsOf d (User.id u)))),
     mkWorld d [SELECT TitleSessionsT]).
Proof.
  intros Hu. unfold listTitleSessions, defineAction,
    ListTitleSessionsInput.schema, exec. cbn [parsed].
  unfold listTitleSessions_handler.
  rewrite bind_requireUser_signed_in with (u := u) by assumption.
  reflexivity.
Qed.

(** For a signed-in caller [listTitleSessions] returns, in store order,
    exactly the sessions whose [userId] is the caller's id, never a
    session of another user, with [total] their number; it sends one read
    to the store and leaves the store unchanged. *)
Theorem listTitleSessions_own input context u env d :
  localsUser context = Some u ->
  exists items,
    exec (listTitleSessions input context env) d
    = (Return (SessionItems items (length items)),
       mkWorld d [SELECT TitleSessionsT])
    /\ (exists keep, items = filter keep (titleSessions d))
    /\ forall s, In s items
                 <-> In s (titleSessions d)
                     /\ TitleSessions.userId s = User.id u.
Proof.
  intros Hu. exists (sessionsOf d (User.id u)). split.
  - now apply listTitleSessions_signed_in.
  - split; [eexists; reflexivity|].
    intros s. unfold sessionsOf. rewrite filter_In, String.eqb_eq. tauto.
Qed.

Lemma listTitleSessions_own_witness :
  exists items,
    exec (listTitleSessions None userB sampleEnv) sampleDb
    = (Return (SessionItems items (length items)),
       mkWorld sampleDb [SELECT TitleSessionsT])
    /\ (exists keep, items = filter keep (titleSessions sampleDb))
    /\ forall s, In s items
                 <-> In s (titleSessions sampleDb)
                     /\ TitleSessions.userId s = User.id (User.mk "user-b").
Proof.
  apply listTitleSessions_own. reflexivity.
Defined.

Lemma owns_decided d userId sessionId :
  match filter (and_ [eq_ TitleSessions.id sessionId;
                      eq_ TitleSessions.userId userId]) (titleSessions d) with
  | [] => ~ owns d userId sessionId
  | _ :: _ => owns d userId sessionId
  end.
Proof.
  destruct (filter _ (titleSessions d)) as [|s rest] eqn:E.
  - intros (s & Hs). apply (owned_filter d userId sessionId) in Hs.
    rewrite E in Hs. destruct Hs.
  - exists s. now apply first_owned with (rest := rest).
Qed.

Lemma updateTitleSession_signed_in input context u env d :
  inputIssues (UpdateTitleSession input) = [] ->
  localsUser context = Some u ->
  exec (updateTitleSession input context env) d
  = match filter (and_ [eq_ TitleSessions.id (UpdateTitleSessionInput.id input);
                        eq_ TitleSessions.userId (User.id u)])
                 (titleSessions d) with
    | [] => (Throw sessionNotFound, mkWorld d [SELECT TitleSessionsT])
    | _ :: _ =>
        (Return
           (SessionData
              (hd_error
                 (map (fun r => TitleSessions.stored
                                  (setTitleSession input (now env) r))
                      (filter (eq_ TitleSessions.id
                                   (UpdateTitleSessionInput.id input))
                              (titleSessions d))))),
         mkWorld
           (mkDb (map (fun r =>
                         if eq_ TitleSessions.id
                                (UpdateTitleSessionInput.id input) r
                         then TitleSessions.stored
                                (setTitleSession input (now env) r)
                         else r)
                      (titleSessions d))
                 (titleIdeas d))
           [SELECT TitleSessionsT;
            UPDATE TitleSessionsT
                   (length (filter (eq_ TitleSessions.id
                                        (UpdateTitleSessionInput.id input))
                                   (titleSessions d)))])
    end.
Proof.
  intros Hiss Hu. cbn [inputIssues] in Hiss. unfold updateTitleSession.
  unfold UpdateTitleSessionInput.schema in *. rewrite parsed_issues in Hiss.
  erewrite defineAction_accepts by (rewrite Hiss; reflexivity).
  unfold updateTitleSession_handler, exec. rewrite guard_cases, Hu.
  cbn [store].
  destruct (filter _ (titleSessions d)); reflexivity.
Qed.

(** With a well-formed input and a signed-in caller, [updateTitleSession]
    returns a session exactly when the caller owns a session with the
    given id, and the session it returns has that id; for every other
    caller, also when the session exists for another user, it fails with
    NOT_FOUND "Title session not found." after the ownership read alone,
    the store unchanged. *)
Theorem updateTitleSession_owner_only input context u env d :
  inputIssues (UpdateTitleSession input) = [] ->
  localsUser context = Some u ->
  (owns d (User.id u) (UpdateTitleSessionInput.id input) ->
   exists s w,
     exec (updateTitleSession input context env) d
     = (Return (SessionData (Some s)), w)
     /\ TitleSessions.id s = UpdateTitleSessionInput.id input)
  /\ (~ owns d (User.id u) (UpdateTitleSessionInput.id input) ->
      exec (updateTitleSession input context env) d
      = (Throw (ActionError NOT_FOUND "Title session not found."),
         mkWorld d [SELECT TitleSessionsT])).
Proof.
  intros Hiss Hu.
  rewrite updateTitleSession_signed_in with (u := u) by assumption.
  pose proof (owns_decided d (User.id u) (UpdateTitleSessionInput.id input))
    as Hdec.
  destruct (filter (and_ _) (titleSessions d)) as [|s0 rest] eqn:E.
  - split; [intros H; contradiction | reflexivity].
  - split; [|intros H; contradiction]. intros _.
    apply first_owned in E. destruct E as (Hin & Hid & _).
    destruct (filter (eq_ TitleSessions.id (UpdateTitleSessionInput.id input))
                     (titleSessions d)) as [|x more] eqn:F.
    + exfalso.
      assert (Hx : In s0 (filter (eq_ TitleSessions.id
                                      (UpdateTitleSessionInput.id input))
                                 (titleSessions d)))
        by (apply filter_In; split; [assumption | now apply eq_string_true]).
      rewrite F in Hx. destruct Hx.
    + do 2 eexists. split; [reflexivity|]. cbn.
      assert (Hx : In x (filter (eq_ TitleSessions.id
                                     (UpdateTitleSessionInput.id input))
                                (titleSessions d)))
        by (rewrite F; now left).
      apply filter_In in Hx. destruct Hx as [_ Hx].
      now apply eq_string_true in Hx.
Qed.

Lemma updateTitleSession_owner_only_witness :
  let input :=
    UpdateTitleSessionInput.mk "session-1" None None None None None
                               (Some "note") in
  (owns sampleDb "user-b" "session-1" ->
   exists s w,
     exec (updateTitleSession input userB sampleEnv) sampleDb
     = (Return (SessionData (Some s)), w)
     /\ TitleSessions.id s = "session-1")
  /\ (~ owns sampleDb "user-b" "session-1" ->
      exec (updateTitleSession input userB sampleEnv) sampleDb
      = (Throw (ActionError NOT_FOUND "Title session not found."),
         mkWorld sampleDb [SELECT TitleSessionsT])).
Proof.
  cbv zeta.
  exact (@updateTitleSession_owner_only
           (UpdateTitleSessionInput.mk "session-1" None None None None None
                                       (Some "note"))
           userB (User.mk "user-b") sampleEnv sampleDb eq_refl eq_refl).
Defined.

(** ** Idea operations for the owner of the session *)

Lemma ideaAt_decided d id sessionId :
  match filter (and_ [eq_ TitleIdeas.id id; eq_ TitleIdeas.sessionId sessionId])
               (titleIdeas d) with
  | [] => ~ ideaAt d id sessionId
  | _ :: _ => ideaAt d id sessionId
  end.
Proof.
  destruct (filter _ (titleIdeas d)) as [|i rest] eqn:E.
  - intros (i & Hi). apply (idea_filter d id sessionId) in Hi.
    rewrite E in Hi. destruct Hi.
  - exists i. apply (idea_filter d id sessionId). rewrite E. now left.
Qed.

Lemma updateTitleIdea_owned input context u env d :
  inputIssues (UpdateTitleIdea input) = [] ->
  localsUser context = Some u ->
  owns d (User.id u) (UpdateTitleIdeaInput.sessionId input) ->
  exec (updateTitleIdea input context env) d
  = match filter (and_ [eq_ TitleIdeas.id (UpdateTitleIdeaInput.id input);
                        eq_ TitleIdeas.sessionId
                            (UpdateTitleIdeaInput.sessionId input)])
                 (titleIdeas d) with
    | [] => (Throw ideaNotFound,
             mkWorld d [SELECT TitleSessionsT; SELECT TitleIdeasT])
    | _ :: _ =>
        (Return
           (IdeaData
              (hd_error
                 (map (fun r => TitleIdeas.stored (setTitleIdea input r))
                      (filter (eq_ TitleIdeas.id (UpdateTitleIdeaInput.id input))
                              (titleIdeas d))))),
         mkWorld
           (mkDb (titleSessions d)
                 (map (fun r =>
                         if eq_ TitleIdeas.id (UpdateTitleIdeaInput.id input) r
                         then TitleIdeas.stored (setTitleIdea input r) else r)
                      (titleIdeas d)))
           [SELECT TitleSessionsT; SELECT TitleIdeasT;
            UPDATE TitleIdeasT
                   (length (filter (eq_ TitleIdeas.id
                                        (UpdateTitleIdeaInput.id input))
                                   (titleIdeas d)))])
    end.
Proof.
  intros Hiss Hu Hown. cbn [inputIssues] in Hiss. unfold updateTitleIdea.
  unfold UpdateTitleIdeaInput.schema in *. rewrite parsed_issues in Hiss.
  erewrite defineAction_accepts by (rewrite Hiss; reflexivity).
  unfold updateTitleIdea_handler, exec.
  edestruct (@guard_owned Response context u
               (UpdateTitleIdeaInput.sessionId input) (mkWorld d []))
    as (s & -> & _); [exact Hu | exact Hown |].
  unfold bind, db_select, db_update, ret, throw, issue. cbn.
  destruct (filter (and_ _) (titleIdeas d)); reflexivity.
Qed.

(** For the owner of the session and a well-formed input,
    [updateTitleIdea] returns an idea, with the given id, exactly when an
    idea of the store has both the given [id] and [sessionId]; when none
    has (the id is unknown, or the idea belongs to another session) it
    fails with NOT_FOUND "Title idea not found." after two reads, the
    store unchanged. *)
Theorem updateTitleIdea_found_only input context u env d :
  inputIssues (UpdateTitleIdea input) = [] ->
  localsUser context = Some u ->
  owns d (User.id u) (UpdateTitleIdeaInput.sessionId input) ->
  (ideaAt d (UpdateTitleIdeaInput.id input)
            (UpdateTitleIdeaInput.sessionId input) ->
   exists i w,
     exec (updateTitleIdea input context env) d
     = (Return (IdeaData (Some i)), w)
     /\ TitleIdeas.id i = UpdateTitleIdeaInput.id input)
  /\ (~ ideaAt d (UpdateTitleIdeaInput.id input)
                 (UpdateTitleIdeaInput.sessionId input) ->
      exec (updateTitleIdea input context env) d
      = (Throw (ActionError NOT_FOUND "Title idea not found."),
         mkWorld d [SELECT TitleSessionsT; SELECT TitleIdeasT])).
Proof.
  intros Hiss Hu Hown.
  rewrite updateTitleIdea_owned with (u := u) by assumption.
  pose proof (ideaAt_decided d (UpdateTitleIdeaInput.id input)
                (UpdateTitleIdeaInput.sessionId input)) as Hdec.
  destruct (filter (and_ _) (titleIdeas d)) as [|i0 rest] eqn:E.
  - split; [intros H; contradiction | reflexivity].
  - split; [|intros H; contradiction]. intros _.
    assert (Hi0 : In i0 (filter (and_ [eq_ TitleIdeas.id
                                         (UpdateTitleIdeaInput.id input);
                                       eq_ TitleIdeas.sessionId
                                         (UpdateTitleIdeaInput.sessionId input)])
                                (titleIdeas d)))
      by (rewrite E; now left).
    apply idea_filter in Hi0. destruct Hi0 as (Hin & Hid & _).
    destruct (filter (eq_ TitleIdeas.id (UpdateTitleIdeaInput.id input))
                     (titleIdeas d)) as [|x more] eqn:F.
    + exfalso.
      assert (Hx : In i0 (filter (eq_ TitleIdeas.id
                                      (UpdateTitleIdeaInput.id input))
                                 (titleIdeas d)))
        by (apply filter_In; split; [assumption | now apply eq_string_true]).
      rewrite F in Hx. destruct Hx.
    + do 2 eexists. split; [reflexivity|]. cbn.
      assert (Hx : In x (filter (eq_ TitleIdeas.id
                                     (UpdateTitleIdeaInput.id input))
                                (titleIdeas d)))
        by (rewrite F; now left).
      apply filter_In in Hx. destruct Hx as [_ Hx].
      now apply eq_string_true in Hx.
Qed.

Lemma updateTitleIdea_found_only_witness :
  let input :=
    UpdateTitleIdeaInput.mk "idea-3" "session-1" (Some "Mine now")
                            None None None None in
  (ideaAt sampleDb "idea-3" "session-1" ->
   exists i w,
     exec (updateTitleIdea input userA sampleEnv) sampleDb
     = (Return (IdeaData (Some i)), w)
     /\ TitleIdeas.id i = "idea-3")
  /\ (~ ideaAt sampleDb "idea-3" "session-1" ->
      exec (updateTitleIdea input userA sampleEnv) sampleDb
      = (Throw (ActionError NOT_FOUND "Title idea not found."),
         mkWorld sampleDb [SELECT TitleSessionsT; SELECT TitleIdeasT])).
Proof.
  cbv zeta.
  refine (@updateTitleIdea_found_only
            (UpdateTitleIdeaInput.mk "idea-3" "session-1" (Some "Mine now")
                                     None None None None)
            userA (User.mk "user-a") sampleEnv sampleDb eq_refl eq_refl _).
  exists session1. split; [now left | split; reflexivity].
Defined.

Lemma createTitleIdea_owned input context u env d :
  inputIssues (CreateTitleIdea input) = [] ->
  localsUser context = Some u ->
  owns d (User.id u) (CreateTitleIdeaInput.sessionId input) ->
  exec (createTitleIdea input context env) d
  = if existsb (fun x => String.eqb (TitleIdeas.id x) (randomUUID env))
               (titleIdeas d)
    then (Throw (ConstraintError TitleIdeasT),
          mkWorld d [SELECT TitleSessionsT; INSERT TitleIdeasT])
    else (Return
            (IdeaData
               (Some (TitleIdeas.stored
                        (TitleIdeas.mk (randomUUID env)
                           (CreateTitleIdeaInput.sessionId input)
                           (CreateTitleIdeaInput.titleText input)
                           (CreateTitleIdeaInput.tone input)
                           (CreateTitleIdeaInput.style input)
                           (spread (CreateTitleIdeaInput.isFavorite input)
                                   false)
                           (spread (CreateTitleIdeaInput.isSelected input)
                                   false)
                           (now env))))),
          mkWorld
            (mkDb (titleSessions d)
                  (titleIdeas d
                   ++ [TitleIdeas.stored
                         (TitleIdeas.mk (randomUUID env)
                            (CreateTitleIdeaInput.sessionId input)
                            (CreateTitleIdeaInput.titleText input)
                            (CreateTitleIdeaInput.tone input)
                            (CreateTitleIdeaInput.style input)
                            (spread (CreateTitleIdeaInput.isFavorite input)
                                    false)
                            (spread (CreateTitleIdeaInput.isSelected input)
                                    false)
                            (now env))]))
            [SELECT TitleSessionsT; INSERT TitleIdeasT]).
Proof.
  intros Hiss Hu Hown. cbn [inputIssues] in Hiss. unfold createTitleIdea.
  unfold CreateTitleIdeaInput.schema in *. rewrite parsed_issues in Hiss.
  erewrite defineAction_accepts by (rewrite Hiss; reflexivity).
  unfold createTitleIdea_handler, exec.
  edestruct (@guard_owned Response context u
               (CreateTitleIdeaInput.sessionId input) (mkWorld d []))
    as (s & -> & _); [exact Hu | exact Hown |].
  unfold bind, db_insert, ret, issue. cbn.
  destruct (existsb _ (titleIdeas d)); reflexivity.
Qed.

(** [createTitleIdea] returns an idea exactly when [sessionId] and
    [titleText] are not empty, the caller is signed in and owns the
    session, and the generated id is carried by no idea of the store. *)
Theorem createTitleIdea_succeeds_iff input context env d :
  (exists resp w, exec (createTitleIdea input context env) d
                  = (Return resp, w))
  <-> CreateTitleIdeaInput.sessionId input <> ""
      /\ CreateTitleIdeaInput.titleText input <> ""
      /\ (exists u, localsUser context = Some u
                    /\ owns d (User.id u) (CreateTitleIdeaInput.sessionId input))
      /\ forall x, In x (titleIdeas d) -> TitleIdeas.id x <> randomUUID env.
Proof.
  split.
  - intros (resp & w & H). apply createTitleIdea_returns in H.
    cbv zeta in H. tauto.
  - intros (Hsid & Htext & (u & Hu & Hown) & Hfresh).
    rewrite createTitleIdea_owned with (u := u); try assumption.
    + rewrite (proj2 (existsb_insert_check TitleIdeas.id _ _) Hfresh). eauto.
    + cbn [inputIssues]. unfold CreateTitleIdeaInput.schema.
      rewrite parsed_issues. now rewrite !min1_nonempty by assumption.
Qed.

(** ** Round trips *)

(** After a successful [createTitleIdea], [listTitleIdeas] for the same
    session and caller returns what it returned before the call, followed
    by the new idea when the idea satisfies the flags asked for (always,
    when no flag is set) and by nothing otherwise. *)
Theorem createTitleIdea_then_list
    input context env d resp w favoritesOnly selectedOnly env' :
  exec (createTitleIdea input context env) d = (Return resp, w) ->
  let list :=
    ListTitleIdeasInput.mkRaw (CreateTitleIdeaInput.sessionId input)
                              favoritesOnly selectedOnly in
  exists i before,
    resp = IdeaData (Some i)
    /\ fst (exec (listTitleIdeas list context env') d)
       = Return (IdeaItems before (length before))
    /\ let shown :=
         if implb (ListTitleIdeasInput.orDefault favoritesOnly false)
                  (TitleIdeas.isFavorite i)
            && implb (ListTitleIdeasInput.orDefault selectedOnly false)
                     (TitleIdeas.isSelected i)
         then [i] else [] in
       fst (exec (listTitleIdeas list context env') (store w))
       = Return (IdeaItems (before ++ shown) (length before + length shown)).
Proof.
  intros H. apply createTitleIdea_returns in H. cbv zeta in H.
  destruct H as (Hsid & _ & (u & Hu & Hown) & _ & -> & ->). cbv zeta.
  do 2 eexists. split; [reflexivity|].
  assert (Hown' : forall ideas,
            owns (mkDb (titleSessions d) ideas) (User.id u)
                 (CreateTitleIdeaInput.sessionId input)) by (intros; exact Hown).
  rewrite listTitleIdeas_owned with (u := u) (d := d); [|assumption ..].
  cbn [store].
  rewrite listTitleIdeas_owned with (u := u); [|auto ..].
  cbv zeta. cbn [fst titleIdeas]. split; [reflexivity|].
  assert (Hl : forall f s i,
            TitleIdeas.sessionId i = CreateTitleIdeaInput.sessionId input ->
            listed (CreateTitleIdeaInput.sessionId input) f s i
            = implb f (TitleIdeas.isFavorite i)
              && implb s (TitleIdeas.isSelected i)).
  { intros f s i E. unfold listed. rewrite E, String.eqb_refl.
    now destruct (implb f _). }
  rewrite filter_app. cbn [filter]. rewrite Hl by reflexivity.
  cbn [TitleIdeas.isFavorite TitleIdeas.isSelected].
  now rewrite length_app.
Qed.

Lemma createTitleIdea_then_list_witness :
  let input :=
    CreateTitleIdeaInput.mk "session-1" "Seven Tips" None None
                            (Some true) None in
  let out := exec (createTitleIdea input userA sampleEnv) sampleDb in
  let list := ListTitleIdeasInput.mkRaw "session-1" (Some true) None in
  exists i before,
    responseOf out = IdeaData (Some i)
    /\ fst (exec (listTitleIdeas list userA sampleEnv) sampleDb)
       = Return (IdeaItems before (length before))
    /\ let shown :=
         if implb true (TitleIdeas.isFavorite i)
            && implb false (TitleIdeas.isSelected i)
         then [i] else [] in
       fst (exec (listTitleIdeas list userA sampleEnv) (store (snd out)))
       = Return (IdeaItems (before ++ shown) (length before + length shown)).
Proof.
  cbv zeta.
  exact (@createTitleIdea_then_list
           (CreateTitleIdeaInput.mk "session-1" "Seven Tips" None None
                                    (Some true) None)
           userA sampleEnv sampleDb _ _ (Some true) None sampleEnv eq_refl).
Defined.

Lemma filter_none {R} (cond : R -> bool) (l : list R) :
  (forall r, In r l -> cond r = false) -> filter cond l = [].
Proof.
  induction l as [|x l IH]; intros H; [reflexivity|]. simpl.
  rewrite (H x) by now left. apply IH. intros r Hr. apply H. now right.
Qed.

Lemma filter_all {R} (cond : R -> bool) (l : list R) :
  (forall r, In r l -> cond r = true) -> filter cond l = l.
Proof.
  induction l as [|x l IH]; intros H; [reflexivity|]. simpl.
  rewrite (H x) by now left. f_equal. apply IH. intros r Hr. apply H.
  now right.
Qed.

Lemma pair_cond_true id sessionId i :
  and_ [eq_ TitleIdeas.id id; eq_ TitleIdeas.sessionId sessionId] i = true
  <-> TitleIdeas.id i = id /\ TitleIdeas.sessionId i = sessionId.
Proof.
  unfold and_. cbn. rewrite andb_true_r, andb_true_iff.
  now rewrite !eq_string_true.
Qed.

(** Deleting the idea a successful [createTitleIdea] returned, under the
    session it was created in and by the same caller, succeeds, affects
    one row and gives back the store as it was before the creation. *)
Theorem createTitleIdea_then_delete input context env d resp w env' :
  randomUUID env <> "" ->
  exec (createTitleIdea input context env) d = (Return resp, w) ->
  exec (deleteTitleIdea
          (DeleteTitleIdeaInput.mk (randomUUID env)
                                   (CreateTitleIdeaInput.sessionId input))
          context env')
       (store w)
  = (Return Success,
     mkWorld d [SELECT TitleSessionsT; DELETE TitleIdeasT 1]).
Proof.
  intros Huuid H. apply createTitleIdea_returns in H. cbv zeta in H.
  destruct H as (Hsid & _ & (u & Hu & Hown) & Hfresh & _ & ->).
  cbn [store].
  rewrite deleteTitleIdea_owned with (u := u); [|assumption ..].
  cbn [titleIdeas titleSessions].
  set (cond := and_ [eq_ TitleIdeas.id (randomUUID env);
                     eq_ TitleIdeas.sessionId
                         (CreateTitleIdeaInput.sessionId input)]).
  assert (Hold : forall r, In r (titleIdeas d) -> cond r = false).
  { intros r Hr. destruct (cond r) eqn:E; [|reflexivity].
    apply pair_cond_true in E. destruct E as [E _].
    now apply Hfresh in Hr. }
  rewrite !filter_app. cbn [filter].
  assert (Hnew : cond (TitleIdeas.stored
                         (TitleIdeas.mk (randomUUID env)
                            (CreateTitleIdeaInput.sessionId input)
                            (CreateTitleIdeaInput.titleText input)
                            (CreateTitleIdeaInput.tone input)
                            (CreateTitleIdeaInput.style input)
                            (spread (CreateTitleIdeaInput.isFavorite input)
                                    false)
                            (spread (CreateTitleIdeaInput.isSelected input)
                                    false)
                            (now env))) = true)
    by (apply pair_cond_true; split; reflexivity).
  rewrite Hnew. cbn [negb].
  rewrite (filter_none cond _ Hold).
  rewrite filter_all by (intros r Hr; now rewrite Hold).
  cbn [app length]. rewrite app_nil_r. now rewrite db_eta.
Qed.

Lemma createTitleIdea_then_delete_witness :
  let input :=
    CreateTitleIdeaInput.mk "session-1" "Seven Tips" None None None None in
  let out := exec (createTitleIdea input userA sampleEnv) sampleDb in
  exec (deleteTitleIdea (DeleteTitleIdeaInput.mk "uuid-9" "session-1")
                        userA sampleEnv)
       (store (snd out))
  = (Return Success,
     mkWorld sampleDb [SELECT TitleSessionsT; DELETE TitleIdeasT 1]).
Proof.
  cbv zeta.
  refine (@createTitleIdea_then_delete
            (CreateTitleIdeaInput.mk "session-1" "Seven Tips" None None
                                     None None)
            userA sampleEnv sampleDb _ _ sampleEnv _ eq_refl).
  discriminate.
Defined.

(** A successful [deleteTitleIdea], step by step. *)
Lemma deleteTitleIdea_returns input context env d resp w :
  exec (deleteTitleIdea input context env) d = (Return resp, w) ->
  DeleteTitleIdeaInput.id input <> ""
  /\ DeleteTitleIdeaInput.sessionId input <> ""
  /\ (exists u, localsUser context = Some u
                /\ owns d (User.id u) (DeleteTitleIdeaInput.sessionId input))
  /\ resp = Success
  /\ store w
     = mkDb (titleSessions d)
            (filter (fun r =>
                       negb (and_ [eq_ TitleIdeas.id
                                     (DeleteTitleIdeaInput.id input);
                                   eq_ TitleIdeas.sessionId
                                     (DeleteTitleIdeaInput.sessionId input)] r))
                    (titleIdeas d)).
Proof.
  unfold deleteTitleIdea, defineAction, DeleteTitleIdeaInput.schema, exec.
  destruct (min1 "id" _ ++ min1 "sessionId" _)%list eqn:Eiss;
    cbn [parsed]; [|discriminate].
  apply app_eq_nil in Eiss. destruct Eiss as [Hid Hsid].
  apply min1_clean in Hid, Hsid.
  unfold deleteTitleIdea_handler. rewrite guard_cases.
  destruct (localsUser context) as [u|]; [|discriminate].
  cbn [store].
  destruct (filter _ (titleSessions d)) as [|s rest] eqn:Eown; [discriminate|].
  apply first_owned in Eown.
  unfold bind, db_delete, ret, throw, issue.
  cbn [store trace rowsOf withRows tableName TitleIdeasTable
       titleIdeas titleSessions app].
  destruct (Nat.eqb _ 0); [discriminate|].
  intros [= <- <-]. cbn [store].
  repeat split; try assumption.
  exists u. split; [reflexivity | now exists s].
Qed.

Lemma filter_neg_then_pos {R} (cond : R -> bool) (l : list R) :
  filter cond (filter (fun r => negb (cond r)) l) = [].
Proof.
  apply filter_none. intros r Hr. apply filter_In in Hr.
  destruct Hr as [_ Hr]. now apply negb_true_iff in Hr.
Qed.

Lemma filter_neg_twice {R} (cond : R -> bool) (l : list R) :
  filter (fun r => negb (cond r)) (filter (fun r => negb (cond r)) l)
  = filter (fun r => negb (cond r)) l.
Proof.
  apply filter_all. intros r Hr. apply filter_In in Hr. tauto.
Qed.

(** Deleting the same idea a second time, right after a successful
    [deleteTitleIdea], fails with NOT_FOUND "Title idea not found."; the
    second delete affects zero rows and leaves the store as the first one
    left it. *)
Theorem deleteTitleIdea_twice input context env d resp w env' :
  exec (deleteTitleIdea input context env) d = (Return resp, w) ->
  exec (deleteTitleIdea input context env') (store w)
  = (Throw (ActionError NOT_FOUND "Title idea not found."),
     mkWorld (store w) [SELECT TitleSessionsT; DELETE TitleIdeasT 0]).
Proof.
  intros H. apply deleteTitleIdea_returns in H.
  destruct H as (Hid & Hsid & (u & Hu & Hown) & _ & ->).
  destruct input as [id sessionId]. cbn in Hid, Hsid, Hown.
  cbn [DeleteTitleIdeaInput.id DeleteTitleIdeaInput.sessionId].
  rewrite deleteTitleIdea_owned with (u := u); [|assumption ..].
  cbn [titleIdeas titleSessions].
  now rewrite filter_neg_then_pos, filter_neg_twice.
Qed.

Lemma deleteTitleIdea_twice_witness :
  let input := DeleteTitleIdeaInput.mk "idea-1" "session-1" in
  let w := snd (exec (deleteTitleIdea input userA sampleEnv) sampleDb) in
  exec (deleteTitleIdea input userA sampleEnv) (store w)
  = (Throw (ActionError NOT_FOUND "Title idea not found."),
     mkWorld (store w) [SELECT TitleSessionsT; DELETE TitleIdeasT 0]).
Proof.
  cbv zeta.
  exact (@deleteTitleIdea_twice
           (DeleteTitleIdeaInput.mk "idea-1" "session-1")
           userA sampleEnv sampleDb _ _ sampleEnv eq_refl).
Defined.

(** ** Updates applied twice *)

Section UpdateTwice.
Variable R : Type.
Variables (set : R -> R) (hit : R -> bool).
Hypothesis hit_set : forall r, hit (set r) = hit r.
Hypothesis set_set : forall r, set (set r) = set r.

Let upd (r : R) : R := if hit r then set r else r.

Lemma upd_upd (l : list R) : map upd (map upd l) = map upd l.
Proof.
  rewrite map_map. apply map_ext. intros r. unfold upd.
  destruct (hit r) eqn:E; [|now rewrite E].
  now rewrite hit_set, E, set_set.
Qed.

Lemma filter_upd (cond : R -> bool) (l : list R) :
  (forall r, cond (upd r) = cond r) ->
  filter cond (map upd l) = map upd (filter cond l).
Proof.
  intros H. induction l as [|x l IH]; [reflexivity|]. simpl.
  rewrite H. destruct (cond x); simpl; now rewrite IH.
Qed.

Lemma hit_upd r : hit (upd r) = hit r.
Proof. unfold upd. destruct (hit r) eqn:E; [now rewrite hit_set | exact E]. Qed.

Lemma returning_upd (l : list R) :
  map set (filter hit (map upd l)) = map set (filter hit l).
Proof.
  rewrite filter_upd by apply hit_upd. rewrite map_map.
  apply map_ext_in. intros r Hr. apply filter_In in Hr.
  destruct Hr as [_ Hr]. unfold upd. now rewrite Hr, set_set.
Qed.

Lemma affected_upd (l : list R) :
  length (filter hit (map upd l)) = length (filter hit l).
Proof.
  rewrite filter_upd by apply hit_upd. apply length_map.
Qed.
End UpdateTwice.

Lemma setTitleIdea_twice input i :
  TitleIdeas.stored
    (setTitleIdea input (TitleIdeas.stored (setTitleIdea input i)))
  = TitleIdeas.stored (setTitleIdea input i).
Proof.
  unfold setTitleIdea, TitleIdeas.stored. cbn.
  destruct (UpdateTitleIdeaInput.titleText input),
    (UpdateTitleIdeaInput.tone input), (UpdateTitleIdeaInput.style input),
    (UpdateTitleIdeaInput.isFavorite input),
    (UpdateTitleIdeaInput.isSelected input); cbn;
    now rewrite ?cutAtNul_twice, ?cutAtNul_option_twice.
Qed.

Lemma setTitleSession_twice input date s :
  TitleSessions.stored
    (setTitleSession input date
       (TitleSessions.stored (setTitleSession input date s)))
  = TitleSessions.stored (setTitleSession input date s).
Proof.
  unfold setTitleSession, TitleSessions.stored. cbn.
  destruct (UpdateTitleSessionInput.contentType input),
    (UpdateTitleSessionInput.workingTitle input),
    (UpdateTitleSessionInput.topic input),
    (UpdateTitleSessionInput.targetAudience input),
    (UpdateTitleSessionInput.language input),
    (UpdateTitleSessionInput.notes input); cbn;
    now rewrite ?cutAtNul_twice, ?cutAtNul_option_twice.
Qed.

(** [updateTitleIdea] is idempotent: repeating a successful update with
    the same input on the store it left succeeds again, returns the same
    idea, sends the same statements and leaves that store unchanged. *)
Theorem updateTitleIdea_idempotent input context env d resp w env' :
  exec (updateTitleIdea input context env) d = (Return resp, w) ->
  exec (updateTitleIdea input context env') (store w)
  = (Return resp, mkWorld (store w) (trace w)).
Proof.
  intros H.
  pose proof (@returns_wellFormed (UpdateTitleIdea input) context env d resp w H)
    as Hwf.
  apply updateTitleIdea_returns in H. cbv zeta in H.
  destruct H as ((u & Hu & Hown) & (i & Hin & Hid & Hsid) & -> & ->).
  cbn [store trace].
  rewrite updateTitleIdea_owned with (u := u); [|assumption | assumption | exact Hown].
  cbn [titleIdeas titleSessions].
  rewrite (filter_upd (fun r => TitleIdeas.stored (setTitleIdea input r))
             (eq_ TitleIdeas.id (UpdateTitleIdeaInput.id input))
             (and_ [eq_ TitleIdeas.id (UpdateTitleIdeaInput.id input);
                    eq_ TitleIdeas.sessionId
                        (UpdateTitleIdeaInput.sessionId input)]))
    by (intros r; destruct (eq_ TitleIdeas.id _ r); reflexivity).
  destruct (filter (and_ _) (titleIdeas d)) as [|x rest] eqn:E.
  - exfalso.
    assert (Hx : In i (filter (and_ [eq_ TitleIdeas.id
                                        (UpdateTitleIdeaInput.id input);
                                     eq_ TitleIdeas.sessionId
                                        (UpdateTitleIdeaInput.sessionId input)])
                              (titleIdeas d)))
      by (apply idea_filter; auto).
    rewrite E in Hx. destruct Hx.
  - cbn [map].
    rewrite returning_upd, upd_upd, affected_upd;
      try (intros; reflexivity); apply setTitleIdea_twice.
Qed.

Lemma updateTitleIdea_idempotent_witness :
  let input :=
    UpdateTitleIdeaInput.mk "idea-2" "session-1" (Some "Ten Better Tips")
                            None None None (Some true) in
  let out := exec (updateTitleIdea input userA sampleEnv) sampleDb in
  exec (updateTitleIdea input userA sampleEnv) (store (snd out))
  = (Return (responseOf out), mkWorld (store (snd out)) (trace (snd out))).
Proof.
  cbv zeta.
  exact (@updateTitleIdea_idempotent
           (UpdateTitleIdeaInput.mk "idea-2" "session-1"
                                    (Some "Ten Better Tips")
                                    None None None (Some true))
           userA sampleEnv sampleDb _ _ sampleEnv eq_refl).
Defined.

(** Repeating a successful [updateTitleSession] with the same input at
    the same time on the store it left succeeds again, returns the same
    session and leaves that store unchanged; at a later time only
    [updatedAt] can differ. *)
Theorem updateTitleSession_idempotent input context env d resp w env' :
  now env' = now env ->
  exec (updateTitleSession input context env) d = (Return resp, w) ->
  exec (updateTitleSession input context env') (store w)
  = (Return resp, mkWorld (store w) (trace w)).
Proof.
  intros Hnow H.
  pose proof (@returns_wellFormed (UpdateTitleSession input) context env d
                resp w H) as Hwf.
  apply updateTitleSession_returns in H. cbv zeta in H.
  destruct H as ((u & s & Hu & Hin & Hid & Huid) & -> & ->).
  cbn [store trace].
  rewrite updateTitleSession_signed_in with (u := u); [|assumption ..].
  cbn [titleIdeas titleSessions]. rewrite Hnow.
  rewrite (filter_upd (fun r => TitleSessions.stored
                                  (setTitleSession input (now env) r))
             (eq_ TitleSessions.id (UpdateTitleSessionInput.id input))
             (and_ [eq_ TitleSessions.id (UpdateTitleSessionInput.id input);
                    eq_ TitleSessions.userId (User.id u)]))
    by (intros r; destruct (eq_ TitleSessions.id _ r); reflexivity).
  destruct (filter (and_ _) (titleSessions d)) as [|x rest] eqn:E.
  - exfalso.
    assert (Hx : In s (filter (and_ [eq_ TitleSessions.id
                                        (UpdateTitleSessionInput.id input);
                                     eq_ TitleSessions.userId (User.id u)])
                              (titleSessions d)))
      by (apply owned_filter; auto).
    rewrite E in Hx. destruct Hx.
  - cbn [map].
    rewrite returning_upd, upd_upd, affected_upd;
      try (intros; reflexivity); apply setTitleSession_twice.
Qed.

Lemma updateTitleSession_idempotent_witness :
  let input :=
    UpdateTitleSessionInput.mk "session-2" (Some "course") None None None
                               None None in
  let out := exec (updateTitleSession input userB sampleEnv) sampleDb in
  now sampleEnv = now sampleEnv
  /\ exec (updateTitleSession input userB sampleEnv) (store (snd out))
     = (Return (responseOf out), mkWorld (store (snd out)) (trace (snd out))).
Proof.
  cbv zeta. split; [reflexivity|].
  exact (@updateTitleSession_idempotent
           (UpdateTitleSessionInput.mk "session-2" (Some "course") None None
                                       None None None)
           userB sampleEnv sampleDb _ _ sampleEnv eq_refl eq_refl).
Defined.

(** ** One call, seen from the store *)

Ltac thrown_store H := injection H as <- <-; reflexivity.

Lemma server_throw_store r context env d e w :
  exec (server r context env) d = (Throw e, w) -> store w = d.
Proof.
  intros H.
  destruct r as [input|input|input|input|input|input|input];
    cbn [server] in H; unfold_actions; unfold defineAction in H;
    unfold_schemas; unfold exec in H;
    match type of H with
    | context [parsed ?iss _] => destruct iss; cbn [parsed] in H
    end;
    try (unfold throw in H; thrown_store H);
    unfold_handlers;
    first [rewrite guard_cases in H
          | unfold bind at 1 in H; unfold requireUser in H];
    destruct (localsUser context) as [u|];
    try (unfold throw in H; thrown_store H);
    cbn [store] in H;
    try (destruct (filter _ (titleSessions d)) as [|s rest];
         [thrown_store H|]).
  - unfold bind, db_insert, ret, issue in H. cbn in H.
    destruct (existsb _ (titleSessions d)); [|discriminate]. thrown_store H.
  - unfold bind, db_update, ret, issue in H. cbn in H. discriminate.
  - unfold bind, db_select, ret, issue in H. cbn in H. discriminate.
  - unfold bind, db_insert, ret, issue in H. cbn in H.
    destruct (existsb _ (titleIdeas d)); [|discriminate]. thrown_store H.
  - unfold bind, db_select, db_update, ret, throw, issue in H. cbn in H.
    destruct (filter (and_ _) (titleIdeas d)) as [|i more]; [|discriminate].
    thrown_store H.
  - unfold bind, db_delete, ret, throw, issue in H.
    cbn [store trace rowsOf withRows tableName TitleIdeasTable
         titleIdeas titleSessions app] in H.
    destruct (Nat.eqb _ 0) eqn:E; [|discriminate].
    apply Nat.eqb_eq in E.
    injection H as <- <-. cbn [store].
    transitivity (mkDb (titleSessions d) (titleIdeas d)); [|apply db_eta].
    f_equal. exact (delete_nothing _ _ E).
  - unfold bind, db_select, ret, issue in H. cbn in H. discriminate.
Qed.

Lemma list_returns_store r context env d resp w :
  isList r = true ->
  exec (server r context env) d = (Return resp, w) -> store w = d.
Proof.
  intros Hl H.
  destruct r as [input|input|input|input|input|input|input];
    try discriminate Hl;
    cbn [server] in H; unfold_actions; unfold defineAction in H;
    unfold_schemas; unfold exec in H;
    match type of H with
    | context [parsed ?iss _] => destruct iss; cbn [parsed] in H
    end;
    try discriminate H;
    unfold_handlers;
    first [rewrite guard_cases in H
          | unfold bind at 1 in H; unfold requireUser in H];
    destruct (localsUser context) as [u|]; try discriminate H;
    cbn [store] in H;
    try (destruct (filter _ (titleSessions d)) as [|s rest];
         [discriminate H|]);
    unfold bind, db_select, ret, issue in H; cbn in H;
    injection H as <- <-; reflexivity.
Qed.

Lemma server_step r context env d :
  stepOf r context env d (store (snd (exec (server r context env) d))).
Proof.
  destruct (exec (server r context env) d) as [[resp|e] w] eqn:H;
    cbn [snd]; [|left; eapply server_throw_store; eassumption].
  destruct r as [input|input|input|input|input|input|input]; cbn [server] in H.
  - (* createTitleSession *)
    destruct (localsUser context) as [u|] eqn:Hu.
    + rewrite createTitleSession_signed_in with (u := u) in H by assumption.
      destruct (existsb _ (titleSessions d)) eqn:E; [discriminate|].
      injection H as <- <-. right. exists u. split; [assumption|].
      eexists. split; [reflexivity|].
      split; [reflexivity|]. split; [reflexivity|].
      split; [|apply stored_session_twice].
      exact (proj1 (existsb_insert_check TitleSessions.id _ _) E).
    + rewrite createTitleSession_anonymous in H by assumption. discriminate.
  - (* updateTitleSession *)
    apply updateTitleSession_returns in H. cbv zeta in H.
    destruct H as ((u & s & Hu & Hs) & _ & ->).
    right. exists u. split; [assumption|]. split; [now exists s | reflexivity].
  - left.
    exact (@list_returns_store (ListTitleSessions input) context env d
             resp w eq_refl H).
  - (* createTitleIdea *)
    apply createTitleIdea_returns in H. cbv zeta in H.
    destruct H as (_ & _ & (u & Hu & Hown) & Hfresh & _ & ->).
    right. exists u. split; [assumption|]. split; [assumption|].
    eexists. split; [reflexivity|].
    split; [reflexivity|]. split; [reflexivity|].
    split; [exact Hfresh | apply stored_idea_twice].
  - (* updateTitleIdea *)
    apply updateTitleIdea_returns in H. cbv zeta in H.
    destruct H as ((u & Hu & Hown) & Hidea & _ & ->).
    right. exists u. repeat split; assumption.
  - (* deleteTitleIdea *)
    apply deleteTitleIdea_returns in H.
    destruct H as (_ & _ & (u & Hu & Hown) & _ & ->).
    right. exists u. repeat split; assumption.
  - left.
    exact (@list_returns_store (ListTitleIdeas input) context env d
             resp w eq_refl H).
Qed.

Lemma unowned_session_throws r sessionId context u env d :
  ideaSessionId r = Some sessionId ->
  inputIssues r = [] ->
  localsUser context = Some u ->
  ~ owns d (User.id u) sessionId ->
  exec (server r context env) d
  = (Throw sessionNotFound, mkWorld d [SELECT TitleSessionsT]).
Proof.
  intros Hsid Hiss Hu Hno.
  destruct r as [input|input|input|input|input|input|input];
    cbn [ideaSessionId] in Hsid; try discriminate;
    injection Hsid as <-;
    cbn [server inputIssues] in *; unfold_actions; unfold_schemas;
    rewrite parsed_issues in Hiss;
    (erewrite defineAction_accepts
      by (unfold_schemas; rewrite Hiss; reflexivity));
    unfold_handlers; unfold exec;
    apply guard_not_owned with (u := u); assumption.
Qed.

(** The list actions only read: for every input and every caller,
    [listTitleSessions] and [listTitleIdeas] leave the store as it was,
    whether they return or throw, and every statement they send is a
    read. *)
Theorem list_actions_only_read r context env d :
  isList r = true ->
  store (snd (exec (server r context env) d)) = d
  /\ forallb isSelect (trace (snd (exec (server r context env) d))) = true.
Proof.
  intros Hl. split.
  - destruct (server_step r context env d) as [E | (u & _ & F)];
      [exact E|].
    destruct r; try discriminate Hl; contradiction.
  - destruct (inputIssues r) as [|x l] eqn:Hiss.
    + destruct (localsUser context) as [u|] eqn:Hu.
      * destruct r as [input|input|input|input|input|input|input];
          try discriminate Hl; cbn [server].
        -- now rewrite listTitleSessions_signed_in with (u := u).
        -- destruct input as [sessionId fav sel].
           assert (Hsid : sessionId <> "").
           { cbn [inputIssues] in Hiss.
             unfold ListTitleIdeasInput.schema in Hiss.
             rewrite parsed_issues in Hiss. now apply min1_clean in Hiss. }
           pose proof (owns_decided d (User.id u) sessionId) as Hdec.
           destruct (filter _ (titleSessions d)).
           ++ change (listTitleIdeas (ListTitleIdeasInput.mkRaw sessionId fav sel))
                with (server (ListTitleIdeas
                                (ListTitleIdeasInput.mkRaw sessionId fav sel))).
              now rewrite unowned_session_throws
                with (u := u) (sessionId := sessionId).
           ++ now rewrite listTitleIdeas_owned with (u := u).
      * now rewrite server_anonymous.
    + rewrite server_rejects by (rewrite Hiss; discriminate). reflexivity.
Qed.

Lemma list_actions_only_read_witness :
  let r := ListTitleIdeas
             (ListTitleIdeasInput.mkRaw "session-1" (Some true) None) in
  isList r = true
  /\ store (snd (exec (server r userA sampleEnv) sampleDb)) = sampleDb
  /\ forallb isSelect (trace (snd (exec (server r userA sampleEnv) sampleDb)))
     = true.
Proof.
  cbv zeta. split; [reflexivity|].
  apply list_actions_only_read. reflexivity.
Defined.

(** A session action never changes the ideas and an idea action never
    changes the sessions, whatever the input and the caller and whether
    the call returns or throws. *)
Theorem actions_keep_to_their_table r context env d :
  match ideaSessionId r with
  | None => titleIdeas (store (snd (exec (server r context env) d)))
            = titleIdeas d
  | Some _ => titleSessions (store (snd (exec (server r context env) d)))
              = titleSessions d
  end.
Proof.
  destruct (server_step r context env d) as [-> | (u & _ & F)].
  - now destruct (ideaSessionId r).
  - destruct r as [input|input|input|input|input|input|input];
      cbn [ideaSessionId]; try contradiction.
    + destruct F as (s & -> & _). reflexivity.
    + destruct F as (_ & ->). reflexivity.
    + destruct F as (_ & i & -> & _). reflexivity.
    + destruct F as (_ & _ & ->). reflexivity.
    + destruct F as (_ & ->). reflexivity.
Qed.

(** No call removes or moves a session or changes who owns it: a session
    of the store before a call is, after it, at the same position with
    the same [id], [userId] and [createdAt]. *)
Theorem sessions_persist r context env d n s :
  nth_error (titleSessions d) n = Some s ->
  exists s',
    nth_error (titleSessions (store (snd (exec (server r context env) d)))) n
    = Some s'
    /\ TitleSessions.id s' = TitleSessions.id s
    /\ TitleSessions.userId s' = TitleSessions.userId s
    /\ TitleSessions.createdAt s' = TitleSessions.createdAt s.
Proof.
  intros Hn.
  destruct (server_step r context env d) as [-> | (u & _ & F)];
    [now exists s|].
  destruct r as [input|input|input|input|input|input|input];
    try contradiction.
  - destruct F as (x & -> & _). exists s. cbn [titleSessions].
    rewrite nth_error_app1 by (apply nth_error_Some; congruence). auto.
  - destruct F as (_ & ->). cbn [titleSessions].
    rewrite (update_rows _ _ _ _ Hn). eexists. split; [reflexivity|].
    destruct (eq_ TitleSessions.id _ s); auto.
  - destruct F as (_ & i & -> & _). now exists s.
  - destruct F as (_ & _ & ->). now exists s.
  - destruct F as (_ & ->). now exists s.
Qed.

Lemma sessions_persist_witness :
  let r := UpdateTitleSession
             (UpdateTitleSessionInput.mk "session-2" None (Some "Final")
                                         None None None None) in
  exists s',
    nth_error (titleSessions (store (snd (exec (server r userB sampleEnv)
                                               sampleDb)))) 1
    = Some s'
    /\ TitleSessions.id s' = TitleSessions.id session2
    /\ TitleSessions.userId s' = TitleSessions.userId session2
    /\ TitleSessions.createdAt s' = TitleSessions.createdAt session2.
Proof.
  cbv zeta. apply sessions_persist. reflexivity.
Defined.

(** ** Isolation between users *)

Lemma filter_map_fixed {R} (c : R -> bool) (f : R -> R) (l : list R) :
  (forall r, In r l -> c (f r) = c r) ->
  (forall r, In r l -> c r = true -> f r = r) ->
  filter c (map f l) = filter c l.
Proof.
  induction l as [|x l IH]; intros Hc Hf; [reflexivity|]. simpl.
  rewrite (Hc x) by now left.
  rewrite IH.
  - destruct (c x) eqn:E; [|reflexivity].
    rewrite (Hf x); [reflexivity | now left | assumption].
  - intros r Hr. apply Hc. now right.
  - intros r Hr. apply Hf. now right.
Qed.

Lemma filter_filter_implied {R} (c p : R -> bool) (l : list R) :
  (forall r, c r = true -> p r = true) ->
  filter c (filter p l) = filter c l.
Proof.
  intros H. induction l as [|x l IH]; [reflexivity|]. simpl.
  destruct (p x) eqn:Ep; simpl; rewrite IH; [reflexivity|].
  destruct (c x) eqn:Ec; [|reflexivity].
  rewrite (H x Ec) in Ep. discriminate.
Qed.

(** On a store that satisfies its key constraint no call changes the
    sessions of a user other than the caller: for every action, input and
    caller, the sessions of any other user are the same after the call as
    before it. *)
Theorem other_users_sessions_untouched r context env d userId :
  primaryKeysHold d ->
  callerId context <> Some userId ->
  sessionsOf (store (snd (exec (server r context env) d))) userId
  = sessionsOf d userId.
Proof.
  intros [Hkeys _] Hother.
  destruct (server_step r context env d) as [-> | (u & Hu & F)];
    [reflexivity|].
  assert (Hne : User.id u <> userId).
  { intros E. apply Hother. unfold callerId. now rewrite Hu, <- E. }
  unfold sessionsOf.
  destruct r as [input|input|input|input|input|input|input];
    try contradiction.
  - destruct F as (s & -> & _ & Huid & _). cbn [titleSessions].
    rewrite filter_app. cbn [filter]. rewrite Huid.
    rewrite (proj2 (String.eqb_neq _ _) Hne). apply app_nil_r.
  - destruct F as ((s0 & Hin0 & Hid0 & Huid0) & ->). cbn [titleSessions].
    apply filter_map_fixed.
    + intros r _. now destruct (eq_ TitleSessions.id _ r).
    + intros r Hr Hc. destruct (eq_ TitleSessions.id _ r) eqn:E;
        [|reflexivity].
      exfalso. apply eq_string_true in E. apply String.eqb_eq in Hc.
      assert (r = s0)
        by (apply (distinct_unique TitleSessions.id (titleSessions d));
            [assumption .. | congruence]).
      subst r. congruence.
  - destruct F as (_ & i & -> & _). reflexivity.
  - destruct F as (_ & _ & ->). reflexivity.
  - destruct F as (_ & ->). reflexivity.
Qed.

Lemma other_users_sessions_untouched_witness :
  let r := UpdateTitleSession
             (UpdateTitleSessionInput.mk "session-1" None (Some "Final")
                                         None None None None) in
  sessionsOf (store (snd (exec (server r userA sampleEnv) sampleDb))) "user-b"
  = sessionsOf sampleDb "user-b".
Proof.
  cbv zeta. apply other_users_sessions_untouched.
  - split; reflexivity.
  - discriminate.
Defined.

(** On a store that satisfies its key constraint no call changes the
    ideas of a session the caller does not own: for every action, input
    and caller, the ideas of such a session are the same after the call
    as before it. *)
Theorem unowned_ideas_untouched r context env d sessionId :
  primaryKeysHold d ->
  (forall u, localsUser context = Some u ->
             ~ owns d (User.id u) sessionId) ->
  ideasOf (store (snd (exec (server r context env) d))) sessionId
  = ideasOf d sessionId.
Proof.
  intros [_ Hkeys] Hno.
  destruct (server_step r context env d) as [-> | (u & Hu & F)];
    [reflexivity|].
  specialize (Hno u Hu). unfold ideasOf.
  destruct r as [input|input|input|input|input|input|input];
    try contradiction.
  - destruct F as (s & -> & _). reflexivity.
  - destruct F as (_ & ->). reflexivity.
  - destruct F as (Hown & i & -> & _ & Hsid & _). cbn [titleIdeas].
    rewrite filter_app. cbn [filter]. rewrite Hsid.
    destruct (String.eqb _ sessionId) eqn:E; [|apply app_nil_r].
    apply String.eqb_eq in E. rewrite E in Hown. contradiction.
  - destruct F as (Hown & (i0 & Hin0 & Hid0 & Hsid0) & ->).
    cbn [titleIdeas]. apply filter_map_fixed.
    + intros r _. now destruct (eq_ TitleIdeas.id _ r).
    + intros r Hr Hc. destruct (eq_ TitleIdeas.id _ r) eqn:E; [|reflexivity].
      exfalso. apply eq_string_true in E. apply String.eqb_eq in Hc.
      assert (r = i0)
        by (apply (distinct_unique TitleIdeas.id (titleIdeas d));
            [assumption .. | congruence]).
      subst r. rewrite Hc in Hsid0. rewrite <- Hsid0 in Hown. contradiction.
  - destruct F as (Hown & ->). cbn [titleIdeas].
    apply filter_filter_implied. intros r Hc. apply negb_true_iff.
    destruct (and_ _ r) eqn:E; [|reflexivity].
    exfalso. apply pair_cond_true in E. destruct E as [_ E].
    apply String.eqb_eq in Hc. rewrite Hc in E. rewrite <- E in Hown.
    contradiction.
Qed.

Lemma unowned_ideas_untouched_witness :
  let r := UpdateTitleIdea
             (UpdateTitleIdeaInput.mk "idea-3" "session-1" (Some "Taken")
                                      None None None None) in
  ideasOf (store (snd (exec (server r userA sampleEnv) sampleDb))) "session-2"
  = ideasOf sampleDb "session-2".
Proof.
  cbv zeta. apply unowned_ideas_untouched.
  - split; reflexivity.
  - intros u [= <-] (s & [<- | [<- | []]] & Hid & Huid); discriminate.
Defined.

(** ** More on reachable stores *)

Lemma reachable_primaryKeysHold_witness :
  reachable (run sampleCalls emptyDb)
  /\ primaryKeysHold (run sampleCalls emptyDb).
Proof.
  split.
  - apply reachable_run, reachable_empty.
  - apply reachable_primaryKeysHold. apply reachable_run, reachable_empty.
Defined.

Lemma step_references r context env d d' :
  referencesHold d -> stepOf r context env d d' -> referencesHold d'.
Proof.
  intros Href [-> | (u & _ & F)]; [exact Href|].
  destruct r as [input|input|input|input|input|input|input];
    try contradiction.
  - destruct F as (s & -> & _). intros i Hi.
    destruct (Href i Hi) as (x & Hx & E). exists x.
    split; [apply in_or_app; now left | exact E].
  - destruct F as (_ & ->). intros i Hi.
    destruct (Href i Hi) as (x & Hx & E). cbn [titleSessions].
    eexists. split; [apply in_map; exact Hx|].
    cbn beta. destruct (eq_ TitleSessions.id _ x); exact E.
  - destruct F as ((s & Hs & Hid & _) & i & -> & _ & Hsid & _).
    intros j Hj. cbn [titleIdeas titleSessions] in *.
    apply in_app_or in Hj. destruct Hj as [Hj | [<- | []]];
      [now apply Href|].
    exists s. split; [assumption | congruence].
  - destruct F as (_ & _ & ->). intros j Hj. cbn [titleIdeas titleSessions] in *.
    apply in_map_iff in Hj. destruct Hj as (i & <- & Hi).
    destruct (Href i Hi) as (x & Hx & E). exists x. split; [assumption|].
    destruct (eq_ TitleIdeas.id _ i); exact E.
  - destruct F as (_ & ->). intros j Hj. cbn [titleIdeas titleSessions] in *.
    apply filter_In in Hj. now apply Href.
Qed.

(** In every store the actions can build from the empty one, every idea
    belongs to a session of the store: its [sessionId] is the [id] of a
    stored session. *)
Theorem reachable_referencesHold d : reachable d -> referencesHold d.
Proof.
  induction 1 as [|d r context env _ IH]; [intros i []|].
  eapply step_references; [exact IH | apply server_step].
Qed.

Lemma reachable_referencesHold_witness :
  reachable (run sampleCalls emptyDb)
  /\ referencesHold (run sampleCalls emptyDb).
Proof.
  split.
  - apply reachable_run, reachable_empty.
  - apply reachable_referencesHold. apply reachable_run, reachable_empty.
Defined.

(** ** The ownership guard, in full *)

(** [getOwnedSession] sends one read and changes nothing; it returns a
    session only if that session is in the store with the given id and
    the given owner, and it throws NOT_FOUND "Title session not found."
    only if the store has no such session. *)
Theorem getOwnedSession_exact sessionId userId w :
  snd (getOwnedSession sessionId userId w) = issue (SELECT TitleSessionsT) w
  /\ match fst (getOwnedSession sessionId userId w) with
     | Return s =>
         In s (titleSessions (store w))
         /\ TitleSessions.id s = sessionId
         /\ TitleSessions.userId s = userId
     | Throw e =>
         e = ActionError NOT_FOUND "Title session not found."
         /\ ~ owns (store w) userId sessionId
     end.
Proof.
  pose proof (owns_decided (store w) userId sessionId) as Hdec.
  destruct (filter _ (titleSessions (store w))) as [|s rest] eqn:E.
  - rewrite getOwnedSession_not_owned by assumption. cbn [fst snd].
    split; [reflexivity|]. split; [reflexivity | assumption].
  - destruct (getOwnedSession_owned w Hdec) as (s' & -> & Hs').
    cbn [fst snd]. split; [reflexivity | exact Hs'].
Qed.

(** ** Writes seen by the list actions *)

(** After a successful [createTitleSession], [listTitleSessions] by the
    same caller returns what it returned before the call followed by the
    new session, and a total one larger. *)
Theorem createTitleSession_then_list input context env d resp w input' env' :
  exec (createTitleSession input context env) d = (Return resp, w) ->
  exists s before,
    resp = SessionData (Some s)
    /\ fst (exec (listTitleSessions input' context env') d)
       = Return (SessionItems before (length before))
    /\ fst (exec (listTitleSessions input' context env') (store w))
       = Return (SessionItems (before ++ [s]) (S (length before))).
Proof.
  destruct (localsUser context) as [u|] eqn:Hu.
  - rewrite createTitleSession_signed_in with (u := u) by assumption.
    destruct (existsb _ (titleSessions d)); [discriminate|].
    intros [= <- <-]. do 2 eexists. split; [reflexivity|].
    rewrite !listTitleSessions_signed_in with (u := u) by assumption.
    cbn [fst store]. split; [reflexivity|].
    unfold sessionsOf. cbn [titleSessions]. rewrite filter_app.
    cbn [filter TitleSessions.userId]. rewrite String.eqb_refl.
    rewrite length_app. cbn [length]. now rewrite Nat.add_1_r.
  - rewrite createTitleSession_anonymous by assumption. discriminate.
Qed.

Lemma createTitleSession_then_list_witness :
  let input :=
    CreateTitleSessionInput.mk None (Some "Second") None None None None in
  let out := exec (createTitleSession input userA sampleEnv) sampleDb in
  exists s before,
    responseOf out = SessionData (Some s)
    /\ fst (exec (listTitleSessions None userA sampleEnv) sampleDb)
       = Return (SessionItems before (length before))
    /\ fst (exec (listTitleSessions None userA sampleEnv) (store (snd out)))
       = Return (SessionItems (before ++ [s]) (S (length before))).
Proof.
  cbv zeta.
  exact (@createTitleSession_then_list
           (CreateTitleSessionInput.mk None (Some "Second") None None None None)
           userA sampleEnv sampleDb _ _ None sampleEnv eq_refl).
Defined.

(** On a store that satisfies its key constraint, the idea a successful
    [updateTitleIdea] returns is the one [listTitleIdeas] then shows for
    its session: it is among the items exactly when it satisfies every
    flag asked for, so always when no flag is set. *)
Theorem updateTitleIdea_then_list
    input context env d resp w favoritesOnly selectedOnly env' :
  primaryKeysHold d ->
  exec (updateTitleIdea input context env) d = (Return resp, w) ->
  exists i items,
    resp = IdeaData (Some i)
    /\ fst (exec (listTitleIdeas
                    (ListTitleIdeasInput.mkRaw
                       (UpdateTitleIdeaInput.sessionId input)
                       favoritesOnly selectedOnly)
                    context env')
                 (store w))
       = Return (IdeaItems items (length items))
    /\ (In i items
        <-> (favoritesOnly = Some true -> TitleIdeas.isFavorite i = true)
            /\ (selectedOnly = Some true -> TitleIdeas.isSelected i = true)).
Proof.
  intros [_ Hkeys] H.
  pose proof (@returns_wellFormed (UpdateTitleIdea input) context env d resp w H)
    as Hwf.
  cbn [inputIssues] in Hwf. unfold UpdateTitleIdeaInput.schema in Hwf.
  rewrite parsed_issues in Hwf. apply app_eq_nil in Hwf.
  destruct Hwf as [_ Hwf]. apply app_eq_nil in Hwf. destruct Hwf as [Hsid _].
  apply min1_clean in Hsid.
  apply updateTitleIdea_returns in H. cbv zeta in H.
  destruct H as ((u & Hu & Hown) & (i0 & Hin & Hid & Hsid0) & -> & ->).
  assert (Hhit : eq_ TitleIdeas.id (UpdateTitleIdeaInput.id input) i0 = true)
    by now apply eq_string_true.
  rewrite (distinct_filter TitleIdeas.id _ _ i0 Hkeys Hin Hhit)
    by (intros r Hr; apply eq_string_true in Hr; congruence).
  cbn [map hd_error store].
  do 2 eexists. split; [reflexivity|].
  rewrite listTitleIdeas_owned with (u := u); [|assumption | assumption | exact Hown].
  cbv zeta. cbn [fst titleIdeas]. split; [reflexivity|].
  rewrite filter_In, listed_true.
  assert (Hthere : In (TitleIdeas.stored (setTitleIdea input i0))
                      (map (fun r => if eq_ TitleIdeas.id
                                           (UpdateTitleIdeaInput.id input) r
                                     then TitleIdeas.stored
                                            (setTitleIdea input r)
                                     else r)
                           (titleIdeas d))).
  { apply in_map_iff. exists i0. now rewrite Hhit. }
  assert (Hs : TitleIdeas.sessionId (TitleIdeas.stored (setTitleIdea input i0))
               = UpdateTitleIdeaInput.sessionId input) by exact Hsid0.
  destruct favoritesOnly as [[|]|], selectedOnly as [[|]|];
    cbn [ListTitleIdeasInput.orDefault]; intuition congruence.
Qed.

Lemma updateTitleIdea_then_list_witness :
  let input :=
    UpdateTitleIdeaInput.mk "idea-2" "session-1" None None None None
                            (Some true) in
  let out := exec (updateTitleIdea input userA sampleEnv) sampleDb in
  exists i items,
    responseOf out = IdeaData (Some i)
    /\ fst (exec (listTitleIdeas
                    (ListTitleIdeasInput.mkRaw "session-1" None (Some true))
                    userA sampleEnv)
                 (store (snd out)))
       = Return (IdeaItems items (length items))
    /\ (In i items
        <-> (None = Some true -> TitleIdeas.isFavorite i = true)
            /\ (Some true = Some true -> TitleIdeas.isSelected i = true)).
Proof.
  cbv zeta.
  refine (@updateTitleIdea_then_list
            (UpdateTitleIdeaInput.mk "idea-2" "session-1" None None None None
                                     (Some true))
            userA sampleEnv sampleDb _ _ None (Some true) sampleEnv _ eq_refl).
  split; reflexivity.
Defined.

(** ** The text of reachable stores *)



